(** * efinance/stock/getter.py: the K-line getters and the bulk fetch

    A shallow embedding of [efinance/stock/getter.py].  The blocking getters
    ([get_quote_history_single], [get_history_bill], [get_today_bill]) are
    functions in a small state-and-exception monad over the trace of calls
    made to the outside world.  The bulk fetch [get_quote_history_multi]
    starts one thread per stock code, so it is a machine whose steps are
    taken by the main thread and by the tasks in any interleaving. *)

From Stdlib Require Import ZArith Ascii String.
From stdpp Require Import base gmap list strings pretty.

Set Warnings "-register-all".
Open Scope Z_scope.

(** ** Exceptions and results *)

Inductive exn : Type :=
  | TypeError
  | KeyError
  | AttributeError
  | ValueError
  | NameError
  | RequestException
  | RuntimeError.

Inductive result (A : Type) : Type :=
  | Ok (a : A)
  | Raise (e : exn).
Arguments Ok {A} a.
Arguments Raise {A} e.

Definition is_ok {A} (r : result A) : bool :=
  match r with Ok _ => true | Raise _ => false end.

(** ** Python values decoded from a JSON body

    [JNull] is Python's [None]; an object keeps its fields in source order. *)

Inductive json : Type :=
  | JNull
  | JBool (b : bool)
  | JNum (z : Z)
  | JStr (s : string)
  | JArr (items : list json)
  | JObj (fields : list (string * json)).

(** A decoded object is a [dict]: of two fields with one name the later wins. *)
Fixpoint obj_lookup (k : string) (fields : list (string * json)) : option json :=
  match fields with
  | [] => None
  | (k', v) :: rest =>
      match obj_lookup k rest with
      | Some v' => Some v'
      | None => if String.eqb k k' then Some v else None
      end
  end.

(** The keys of a [dict] in insertion order, each once. *)
Fixpoint dict_keys (seen : list string) (fields : list (string * json)) : list string :=
  match fields with
  | [] => []
  | (k, _) :: rest =>
      if bool_decide (k ∈ seen) then dict_keys seen rest
      else k :: dict_keys (k :: seen) rest
  end.

(** [j.get(k)]: only a dict has [get]; a missing key gives [None]. *)
Definition dict_get (j : json) (k : string) : result json :=
  match j with
  | JObj fields => Ok (default JNull (obj_lookup k fields))
  | _ => Raise AttributeError
  end.

(** [j[k]] for a string [k]. *)
Definition subscript (j : json) (k : string) : result json :=
  match j with
  | JObj fields =>
      match obj_lookup k fields with
      | Some v => Ok v
      | None => Raise KeyError
      end
  | _ => Raise TypeError
  end.

Definition is_None (j : json) : bool :=
  match j with JNull => true | _ => false end.

Fixpoint chars (s : string) : list string :=
  match s with
  | EmptyString => []
  | String c s' => String c EmptyString :: chars s'
  end.

(** [for x in j]. *)
Definition py_iter (j : json) : result (list json) :=
  match j with
  | JArr items => Ok items
  | JStr s => Ok (JStr <$> chars s)
  | JObj fields => Ok (JStr <$> dict_keys [] fields)
  | _ => Raise TypeError
  end.

(** [s.split(',')]. *)
Fixpoint split_comma (s : string) : list string :=
  match s with
  | EmptyString => [EmptyString]
  | String c s' =>
      if Ascii.eqb c ","%char then EmptyString :: split_comma s'
      else match split_comma s' with
           | hd :: tl => String c hd :: tl
           | [] => [String c EmptyString]
           end
  end.

(** [kline.split(',')]: only a [str] has [split]. *)
Definition kline_split (kline : json) : result (list json) :=
  match kline with
  | JStr s => Ok (JStr <$> split_comma s)
  | _ => Raise AttributeError
  end.

Fixpoint result_mapM {A B} (f : A → result B) (l : list A) : result (list B) :=
  match l with
  | [] => Ok []
  | x :: l' =>
      match f x with
      | Raise e => Raise e
      | Ok y =>
          match result_mapM f l' with
          | Raise e => Raise e
          | Ok ys => Ok (y :: ys)
          end
      end
  end.

(** [[kline.split(',') for kline in klines]]. *)
Definition split_rows (klines : json) : result (list (list json)) :=
  match py_iter klines with
  | Raise e => Raise e
  | Ok items => result_mapM kline_split items
  end.

(** ** pandas.DataFrame, as far as the getters use it *)

Record DataFrame : Type := {
  df_columns : list string;
  df_rows : list (list json)
}.

(** [pd.DataFrame(columns=columns)]. *)
Definition DataFrame_empty (columns : list string) : DataFrame :=
  {| df_columns := columns; df_rows := [] |}.

Definition len (df : DataFrame) : nat := length (df_rows df).

Definition row_width (rows : list (list json)) : nat :=
  foldr (λ r w, Nat.max (length r) w) 0%nat rows.

Definition pad_row (w : nat) (r : list json) : list json :=
  r ++ replicate (w - length r)%nat JNull.

(** [pd.DataFrame(rows, columns=columns)]: short rows are filled with [None],
    and a width other than the number of columns is a [ValueError]. *)
Definition DataFrame_of_rows (rows : list (list json)) (columns : list string)
  : result DataFrame :=
  match rows with
  | [] => Ok (DataFrame_empty columns)
  | _ =>
      let w := row_width rows in
      if Nat.eqb w (length columns)
      then Ok {| df_columns := columns; df_rows := pad_row w <$> rows |}
      else Raise ValueError
  end.

(** [df.insert(0, column, value)]. *)
Definition df_insert (column : string) (value : list json) (df : DataFrame)
  : result DataFrame :=
  if bool_decide (column ∈ df_columns df) then Raise ValueError
  else if negb (Nat.eqb (length value) (len df)) then Raise ValueError
  else Ok {| df_columns := column :: df_columns df;
             df_rows := zip_with cons value (df_rows df) |}.

(** ** Calls to the outside world *)

Record Request : Type := {
  req_url : string;
  req_headers : list (string * string);
  req_params : list (string * string)
}.

(** What a call left behind: the identifier resolver asked about a code, a
    request sent on behalf of a code, or the local market table refreshed. *)
Inductive call : Type :=
  | CResolve (stock_code : string)
  | CFetch (stock_code : string) (r : Request)
  | CMarketUpdate.

Definition is_fetch_of (stock_code : string) (c : call) : bool :=
  match c with
  | CFetch k _ => String.eqb k stock_code
  | _ => false
  end.

(** The call counter of a code: how many requests were sent for it. *)
Definition attempts (stock_code : string) (trace : list call) : nat :=
  length (filter (λ c, is_fetch_of stock_code c = true) trace).

(** Computations that read and extend the trace and may raise. *)
Definition Py (A : Type) : Type := list call → result A * list call.

Definition ret {A} (a : A) : Py A := λ tr, (Ok a, tr).
Definition lift {A} (r : result A) : Py A := λ tr, (r, tr).
Definition bind {A B} (c : Py A) (k : A → Py B) : Py B :=
  λ tr, match c tr with
        | (Ok a, tr') => k a tr'
        | (Raise e, tr') => (Raise e, tr')
        end.

Notation "'do' x <- c ; k" := (bind c (λ x, k))
  (at level 10, x name, c at level 100, k at level 200).

Section Getters.

(** The tables of [config.py] and the resolver of [utils.py] are outside
    this file's source: they are taken as they come.  [gen_secid] depends on
    the text of the code alone.  [urlencode] is [urllib.parse.urlencode].
    [provider] answers a request with the decoded JSON body or raises,
    possibly depending on every call made before. *)
Variable EastmoneyKlines : list (string * string).
Variable EastmoneyBills : list (string * string).
Variable EastmoneyHeaders : list (string * string).
Variable gen_secid : string → string.
Variable urlencode : list (string * string) → string.
Variable provider : list call → Request → result json.

Definition call_gen_secid (stock_code : string) : Py string :=
  λ tr, (Ok (gen_secid stock_code), tr ++ [CResolve stock_code]).

(** [requests.get(...).json()]. *)
Definition requests_get_json (stock_code : string) (r : Request) : Py json :=
  λ tr, (provider tr r, tr ++ [CFetch stock_code r]).

Definition kline_request (stock_code beg end_ : string) (klt fqt : Z)
    (secid : string) : Request :=
  let fields := EastmoneyKlines.*1 in
  let fields2 := String.concat "," fields in
  let params :=
    [ ("fields1", "f1,f2,f3,f4,f5,f6,f7,f8,f9,f10,f11,f12,f13");
      ("fields2", fields2);
      ("beg", beg);
      ("end", end_);
      ("rtntype", "6");
      ("secid", secid);
      ("klt", pretty klt);
      ("fqt", pretty fqt) ] in
  let base_url := "https://push2his.eastmoney.com/api/qt/stock/kline/get" in
  let url := base_url +:+ "?" +:+ urlencode params in
  {| req_url := url; req_headers := EastmoneyHeaders; req_params := [] |}.

Definition get_quote_history_single (stock_code beg end_ : string)
    (klt fqt : Z) : Py DataFrame :=
  let columns := EastmoneyKlines.*2 in
  do secid <- call_gen_secid stock_code;
  do json_response <-
    requests_get_json stock_code (kline_request stock_code beg end_ klt fqt secid);
  do data <- lift (dict_get json_response "data");
  if is_None data then ret (DataFrame_empty columns)
  else
    do stock_name <- lift (subscript data "name");
    do klines <- lift (subscript data "klines");
    do rows <- lift (split_rows klines);
    do df <- lift (DataFrame_of_rows rows columns);
    do df <- lift (df_insert "股票代码" (replicate (len df) (JStr stock_code)) df);
    do df <- lift (df_insert "股票名称" (replicate (len df) stock_name) df);
    ret df.

Definition get_history_bill (stock_code : string) : Py DataFrame :=
  let fields := EastmoneyBills.*1 in
  let columns := EastmoneyBills.*2 in
  let fields2 := String.concat "," fields in
  do secid <- call_gen_secid stock_code;
  let params :=
    [ ("lmt", "100000");
      ("klt", "101");
      ("secid", secid);
      ("fields1", "f1,f2,f3,f7");
      ("fields2", fields2) ] in
  do json_response <-
    requests_get_json stock_code
      {| req_url := "http://push2his.eastmoney.com/api/qt/stock/fflow/daykline/get";
         req_headers := EastmoneyHeaders;
         req_params := params |};
  do data <- lift (dict_get json_response "data");
  if is_None data then ret (DataFrame_empty columns)
  else
    do klines <- lift (subscript data "klines");
    do rows <- lift (split_rows klines);
    do df <- lift (DataFrame_of_rows rows columns);
    ret df.

Definition today_bill_columns : list string :=
  ["时间"; "主力净流入"; "小单净流入"; "中单净流入"; "大单净流入"; "超大单净流入"].

Definition get_today_bill (stock_code : string) : Py DataFrame :=
  do secid <- call_gen_secid stock_code;
  let params :=
    [ ("lmt", "0");
      ("klt", "1");
      ("secid", secid);
      ("fields1", "f1,f2,f3,f7");
      ("fields2", "f51,f52,f53,f54,f55,f56,f57,f58,f59,f60,f61,f62,f63");
      ("ut", "b2884a393a59ad64002292a3e90d46a5") ] in
  do json_response <-
    requests_get_json stock_code
      {| req_url := "http://push2.eastmoney.com/api/qt/stock/fflow/kline/get";
         req_headers := EastmoneyHeaders;
         req_params := params |};
  do data <- lift (subscript json_response "data");
  do klines <- lift (subscript data "klines");
  let columns := today_bill_columns in
  do klines <- lift (subscript data "klines");
  do rows <- lift (split_rows klines);
  do df <- lift (DataFrame_of_rows rows columns);
  do df <- lift (df_insert "股票代码" (replicate (len df) (JStr stock_code)) df);
  ret df.

(** ** The progress bar (tqdm), as far as the bulk fetch uses it *)

Record tqdm : Type := {
  total : nat;
  n : nat;
  desc : string;
  closed : bool
}.

Definition tqdm_new (total : nat) : tqdm :=
  {| total := total; n := 0; desc := ""; closed := false |}.

Definition update (k : nat) (bar : tqdm) : tqdm :=
  {| total := total bar; n := n bar + k; desc := desc bar; closed := closed bar |}.

Definition set_description_str (d : string) (bar : tqdm) : tqdm :=
  {| total := total bar; n := n bar; desc := d; closed := closed bar |}.

Definition close (bar : tqdm) : tqdm :=
  {| total := total bar; n := n bar; desc := desc bar; closed := true |}.

(** ** The argument of the entry points *)

Inductive pyval : Type :=
  | PyNone
  | PyInt (z : Z)
  | PyStr (s : string)
  | PyList (items : list string)
  | PyTuple (items : list string).

(** [isinstance(v, str)]. *)
Definition isinstance_str (v : pyval) : bool :=
  match v with PyStr _ => true | _ => false end.

(** [hasattr(v, '__iter__')]. *)
Definition has_iter (v : pyval) : bool :=
  match v with
  | PyStr _ | PyList _ | PyTuple _ => true
  | PyNone | PyInt _ => false
  end.

(** [list(v)] of an iterable. *)
Definition list_of (v : pyval) : list string :=
  match v with
  | PyList items | PyTuple items => items
  | PyStr s => chars s
  | PyNone | PyInt _ => []
  end.

(** Which callee an entry point hands its argument to. *)
Inductive dispatch : Type :=
  | ToSingle (stock_code : string)
  | ToMulti (stock_codes : list string)
  | ToTypeError.

Definition get_quote_history_dispatch (stock_codes : pyval) : dispatch :=
  match stock_codes with
  | PyStr s => ToSingle s
  | _ =>
      if has_iter stock_codes then ToMulti (list_of stock_codes)
      else ToTypeError
  end.

(** [get_base_info] hands the iterable over as it is. *)
Definition get_base_info_dispatch (stock_codes : pyval) : dispatch :=
  match stock_codes with
  | PyStr s => ToSingle s
  | _ =>
      if has_iter stock_codes then ToMulti (list_of stock_codes)
      else ToTypeError
  end.

(** ** The bulk fetch as a machine

    [multitasking.task] turns [start] into a function that starts a thread
    running the body and returns at once (the pool has threads, as it has
    unless it is configured otherwise); what the body raises ends its
    thread and reaches nobody.  [retry(tries)] is wrapped around that
    function: it calls it again only when the call itself raises, gives up
    when the counter reaches zero, and calls nothing when the counter is
    zero from the start.  [multitasking.wait_for_tasks] returns when every
    thread has ended.  [multitasking.killall], the SIGINT handler installed
    when the module is loaded, ends the process. *)

Record kwargs : Type := {
  beg : string;
  end_ : string;
  klt : Z;
  fqt : Z
}.

Definition default_kwargs : kwargs :=
  {| beg := "19000101"; end_ := "20500101"; klt := 101; fqt := 1 |}.

(** Where a task stands in the body of [start]; [_df] once it is bound. *)
Inductive task_pc : Type :=
  | AtFetch
  | AtStore (_df : DataFrame)
  | AtUpdate (_df : DataFrame)
  | AtDescribe (_df : DataFrame)
  | Finished (_df : DataFrame)
  | Died (e : exn) (_df : option DataFrame).

Record task : Type := {
  stock_code : string;
  pc : task_pc
}.

(** Where the calling thread stands. *)
Inductive main_pc : Type :=
  | Enter (stock_codes : pyval)
  | Single (stock_code : string)
  | Multi (stock_codes : list string)
  | Loop (rest : list string)
  | Retry (stock_code : string) (_tries : Z) (rest : list string)
  | Wait
  | Close
  | ReturnedDict
  | ReturnedFrame (df : DataFrame)
  | Raised (e : exn).

Record state : Type := {
  main : main_pc;
  args : kwargs;
  tries : Z;
  dfs : gmap string DataFrame;
  pbar : option tqdm;
  TASKS : list task;
  trace : list call;
  killed : bool
}.

Definition with_main (m : main_pc) (s : state) : state :=
  {| main := m; args := args s; tries := tries s; dfs := dfs s; pbar := pbar s;
     TASKS := TASKS s; trace := trace s; killed := killed s |}.

Definition with_tries (t : Z) (s : state) : state :=
  {| main := main s; args := args s; tries := t; dfs := dfs s; pbar := pbar s;
     TASKS := TASKS s; trace := trace s; killed := killed s |}.

Definition with_dfs (d : gmap string DataFrame) (s : state) : state :=
  {| main := main s; args := args s; tries := tries s; dfs := d; pbar := pbar s;
     TASKS := TASKS s; trace := trace s; killed := killed s |}.

Definition with_pbar (b : option tqdm) (s : state) : state :=
  {| main := main s; args := args s; tries := tries s; dfs := dfs s; pbar := b;
     TASKS := TASKS s; trace := trace s; killed := killed s |}.

Definition with_TASKS (ts : list task) (s : state) : state :=
  {| main := main s; args := args s; tries := tries s; dfs := dfs s; pbar := pbar s;
     TASKS := ts; trace := trace s; killed := killed s |}.

Definition with_trace (tr : list call) (s : state) : state :=
  {| main := main s; args := args s; tries := tries s; dfs := dfs s; pbar := pbar s;
     TASKS := TASKS s; trace := tr; killed := killed s |}.

Definition with_killed (b : bool) (s : state) : state :=
  {| main := main s; args := args s; tries := tries s; dfs := dfs s; pbar := pbar s;
     TASKS := TASKS s; trace := trace s; killed := b |}.

Definition set_pc (i : nat) (t : task) (p : task_pc) (s : state) : state :=
  with_TASKS (<[i := {| stock_code := stock_code t; pc := p |}]> (TASKS s)) s.

Definition ended (t : task) : bool :=
  match pc t with
  | Finished _ | Died _ _ => true
  | _ => false
  end.

(** The task wrote its entry into [dfs]. *)
Definition stored (t : task) : bool :=
  match pc t with
  | AtUpdate _ | AtDescribe _ | Finished _ | Died _ (Some _) => true
  | _ => false
  end.

(** The call is over: it returned or raised. *)
Definition returned (s : state) : bool :=
  match main s with
  | ReturnedDict | ReturnedFrame _ | Raised _ => true
  | _ => false
  end.

(** Who takes the next step: the calling thread, task [i], the reporter of
    task [i] failing, or SIGINT arriving. *)
Inductive actor : Type :=
  | Main
  | Task (i : nat)
  | Fault (i : nat)
  | Interrupt.

Definition initial (m : main_pc) (kw : kwargs) (tries : Z) : state :=
  {| main := m; args := kw; tries := tries; dfs := ∅; pbar := None;
     TASKS := []; trace := []; killed := false |}.

(** Modelled from the spec: [update_local_market_stocks_info] of [utils.py]
    is not in the source.  The spec names no failure of it and counts it
    among what the empty batch does not consult, so it is a call that
    returns and leaves its mark in the trace. *)
Definition update_local_market_stocks_info : Py unit :=
  λ tr, (Ok tt, tr ++ [CMarketUpdate]).

(** [single = engine(target=callee, args=args); TASKS.append(single);
    single.start(); return single]: the wrapped [start] as the caller
    sees it. *)
Definition async_method (stock_code : string) (s : state) : result unit * state :=
  (Ok tt, with_TASKS (TASKS s ++ [{| stock_code := stock_code; pc := AtFetch |}]) s).

(** One step of the calling thread. *)
Definition step_main (s : state) : option state :=
  match main s with
  | Enter stock_codes =>
      match get_quote_history_dispatch stock_codes with
      | ToSingle stock_code => Some (with_main (Single stock_code) s)
      | ToMulti stock_codes => Some (with_main (Multi stock_codes) (with_tries 3 s))
      | ToTypeError => Some (with_main (Raised TypeError) s)
      end
  | Single stock_code =>
      let kw := args s in
      match get_quote_history_single stock_code (beg kw) (end_ kw) (klt kw) (fqt kw)
              (trace s) with
      | (Ok df, tr) => Some (with_main (ReturnedFrame df) (with_trace tr s))
      | (Raise e, tr) => Some (with_main (Raised e) (with_trace tr s))
      end
  | Multi stock_codes =>
      let total := length stock_codes in
      match (if Nat.eqb total 0 then ret tt else update_local_market_stocks_info)
              (trace s) with
      | (Ok _, tr) =>
          Some (with_main (Loop stock_codes)
                  (with_pbar (Some (tqdm_new total))
                     (with_trace tr (with_dfs ∅ s))))
      | (Raise e, tr) => Some (with_main (Raised e) (with_trace tr (with_dfs ∅ s)))
      end
  | Loop [] => Some (with_main Wait s)
  | Loop (stock_code :: rest) =>
      Some (with_main (Retry stock_code (tries s) rest) s)
  | Retry stock_code _tries rest =>
      if _tries =? 0 then Some (with_main (Loop rest) s)
      else
        match async_method stock_code s with
        | (Ok _, s') => Some (with_main (Loop rest) s')
        | (Raise e, s') =>
            let _tries := _tries - 1 in
            if _tries =? 0 then Some (with_main (Raised e) s')
            else Some (with_main (Retry stock_code _tries rest) s')
        end
  | Wait =>
      if forallb ended (TASKS s) then Some (with_main Close s) else None
  | Close =>
      Some (with_main ReturnedDict (with_pbar (close <$> pbar s) s))
  | ReturnedDict | ReturnedFrame _ | Raised _ => None
  end.

(** One step of task [i] in the body of [start]. *)
Definition step_task (i : nat) (s : state) : option state :=
  match TASKS s !! i with
  | None => None
  | Some t =>
      match pc t with
      | AtFetch =>
          let kw := args s in
          match get_quote_history_single (stock_code t) (beg kw) (end_ kw) (klt kw)
                  (fqt kw) (trace s) with
          | (Ok _df, tr) => Some (set_pc i t (AtStore _df) (with_trace tr s))
          | (Raise e, tr) => Some (set_pc i t (Died e None) (with_trace tr s))
          end
      | AtStore _df =>
          Some (set_pc i t (AtUpdate _df) (with_dfs (<[stock_code t := _df]> (dfs s)) s))
      | AtUpdate _df =>
          match pbar s with
          | Some bar => Some (set_pc i t (AtDescribe _df) (with_pbar (Some (update 1 bar)) s))
          | None => Some (set_pc i t (Died NameError (Some _df)) s)
          end
      | AtDescribe _df =>
          match pbar s with
          | Some bar =>
              Some (set_pc i t (Finished _df)
                      (with_pbar
                         (Some (set_description_str ("Processing: " +:+ stock_code t) bar)) s))
          | None => Some (set_pc i t (Died NameError (Some _df)) s)
          end
      | Finished _ | Died _ _ => None
      end
  end.

(** The reporter call task [i] is about to make raises instead. *)
Definition step_fault (i : nat) (s : state) : option state :=
  match TASKS s !! i with
  | None => None
  | Some t =>
      match pc t with
      | AtUpdate _df | AtDescribe _df =>
          Some (set_pc i t (Died RuntimeError (Some _df)) s)
      | _ => None
      end
  end.

(** SIGINT while the call is running: [killall] ends the process. *)
Definition step_interrupt (s : state) : option state :=
  if returned s then None else Some (with_killed true s).

Definition step (a : actor) (s : state) : option state :=
  if killed s then None
  else match a with
       | Main => step_main s
       | Task i => step_task i s
       | Fault i => step_fault i s
       | Interrupt => step_interrupt s
       end.

(** A run: the actors take their steps in the order of the schedule. *)
Fixpoint exec (sched : list actor) (s : state) : option state :=
  match sched with
  | [] => Some s
  | a :: sched' =>
      match step a s with
      | Some s' => exec sched' s'
      | None => None
      end
  end.

Definition is_interrupt (a : actor) : bool :=
  match a with Interrupt => true | _ => false end.

(** No SIGINT in the schedule. *)
Definition uncancelled (sched : list actor) : Prop :=
  forallb (λ a, negb (is_interrupt a)) sched = true.


(** [get_quote_history(stock_codes, beg, end, klt, fqt)] is called. *)
Definition get_quote_history (stock_codes : pyval) (kw : kwargs) : state :=
  initial (Enter stock_codes) kw 3.

(** [get_quote_history_multi(stock_codes, beg, end, klt, fqt, tries)] is
    called. *)
Definition get_quote_history_multi (stock_codes : list string) (kw : kwargs)
    (tries : Z) : state :=
  initial (Multi stock_codes) kw tries.

(** ** What a frame says about the code it was fetched for *)

(** The frame has the code column and every row holds the code in it. *)
Definition tagged (stock_code : string) (df : DataFrame) : Prop :=
  ∃ i, df_columns df !! i = Some "股票代码" ∧
       ∀ row, row ∈ df_rows df → row !! i = Some (JStr stock_code).

(** The frame of a code the provider has no data for. *)
Definition placeholder : DataFrame := DataFrame_empty (EastmoneyKlines.*2).

Definition fetch (kw : kwargs) (stock_code : string) : Py DataFrame :=
  get_quote_history_single stock_code (beg kw) (end_ kw) (klt kw) (fqt kw).

Definition request_of (kw : kwargs) (stock_code : string) : Request :=
  kline_request stock_code (beg kw) (end_ kw) (klt kw) (fqt kw) (gen_secid stock_code).

(** ** Bookkeeping over the machine *)

(** The codes whose task was started, in the order of starting. *)
Definition spawned (s : state) : list string := stock_code <$> TASKS s.

(** The codes the loop has still to start. *)
Definition pending (m : main_pc) : list string :=
  match m with
  | Multi stock_codes => stock_codes
  | Loop rest => rest
  | Retry stock_code _ rest => stock_code :: rest
  | _ => []
  end.

Definition in_multi (m : main_pc) : bool :=
  match m with
  | Multi _ | Loop _ | Retry _ _ _ | Wait | Close | ReturnedDict => true
  | _ => false
  end.

(** The frame bound to [_df] in a task. *)
Definition df_of (p : task_pc) : option DataFrame :=
  match p with
  | AtFetch => None
  | AtStore _df | AtUpdate _df | AtDescribe _df | Finished _df => Some _df
  | Died _ o => o
  end.

(** 1 when the task is for the code and has sent its request. *)
Definition asked (k : string) (t : task) : nat :=
  match pc t with
  | AtFetch => 0
  | _ => if String.eqb (stock_code t) k then 1 else 0
  end.

(** The steps a task has still to take. *)
Definition task_work (t : task) : nat :=
  match pc t with
  | AtFetch => 4
  | AtStore _ => 3
  | AtUpdate _ => 2
  | AtDescribe _ => 1
  | Finished _ | Died _ _ => 0
  end.

(** The steps the calling thread has still to take, with those of the tasks
    it has still to start. *)
Definition main_work (m : main_pc) : nat :=
  match m with
  | Enter stock_codes => 6 * length (list_of stock_codes) + 5
  | Single _ => 1
  | Multi stock_codes => 6 * length stock_codes + 4
  | Loop rest => 6 * length rest + 3
  | Retry _ _ rest => 6 * length rest + 8
  | Wait => 2
  | Close => 1
  | ReturnedDict | ReturnedFrame _ | Raised _ => 0
  end.

Definition work (s : state) : nat :=
  (main_work (main s) + sum_list_with task_work (TASKS s))%nat.

(** What holds in every state of a run of [get_quote_history_multi] on
    [keys]. *)
Record Inv (keys : list string) (kw : kwargs) (tries0 : Z) (s : state) : Prop := {
  inv_args : args s = kw;
  inv_tries : tries s = tries0;
  inv_main : in_multi (main s) = true;
  inv_retry : ∀ k t rest, main s = Retry k t rest → t = tries0;
  inv_fresh : ∀ l, main s = Multi l → TASKS s = [] ∧ dfs s = ∅;
  inv_spawned : tries0 ≠ 0 → spawned s ++ pending (main s) = keys;
  inv_spawned0 : tries0 = 0 → TASKS s = [];
  inv_joined : main s = Close ∨ main s = ReturnedDict →
               forallb ended (TASKS s) = true;
  inv_recorded : ∀ i t, TASKS s !! i = Some t → stored t = true →
                 is_Some (dfs s !! stock_code t);
  inv_entry : ∀ k df, dfs s !! k = Some df →
              ∃ i t, TASKS s !! i = Some t ∧ stock_code t = k ∧
                     stored t = true ∧ df_of (pc t) = Some df;
  inv_fetched : ∀ i t df, TASKS s !! i = Some t → df_of (pc t) = Some df →
                ∃ tr, (fetch kw (stock_code t) tr).1 = Ok df ∧
                      (NoDup keys → attempts (stock_code t) tr = 0%nat);
  inv_failed : ∀ i t e, TASKS s !! i = Some t → pc t = Died e None →
               ∃ tr, (fetch kw (stock_code t) tr).1 = Raise e ∧
                     (NoDup keys → attempts (stock_code t) tr = 0%nat);
  inv_attempts : ∀ k, attempts k (trace s) = sum_list_with (asked k) (TASKS s)
}.

(** ** What the claims speak of *)

(** The fetch of a code returns a frame whatever was called before. *)
Definition fetch_succeeds (kw : kwargs) (stock_code : string) : Prop :=
  ∀ tr, is_ok (fetch kw stock_code tr).1 = true.

(** The fetch of a code raises whatever was called before. *)
Definition fetch_fails (kw : kwargs) (stock_code : string) : Prop :=
  ∀ tr, is_ok (fetch kw stock_code tr).1 = false.

(** How often a code occurs in a list of codes. *)
Definition occurrences (k : string) (codes : list string) : nat :=
  sum_list_with (λ c, if String.eqb c k then 1 else 0)%nat codes.


(** Nothing was started and nobody was called. *)
Definition idle (s : state) : Prop :=
  TASKS s = [] ∧ trace s = [] ∧ dfs s = ∅ ∧
  (main s = Multi [] ∨ main s = Loop [] ∨ main s = Wait ∨ main s = Close ∨
   main s = ReturnedDict).

(** [get_quote_history] was entered, or has raised [TypeError], and nothing
    else has happened. *)
Definition refused (v : pyval) (s : state) : Prop :=
  TASKS s = [] ∧ trace s = [] ∧ dfs s = ∅ ∧
  (main s = Enter v ∨ main s = Raised TypeError).

(** ** More to speak of *)

(** The cells of a K-line. *)
Definition cells (line : string) : list json := JStr <$> split_comma line.

(** The text of a row of strings. *)
Definition row_text (row : list json) : list string :=
  omap (λ c, match c with JStr s => Some s | _ => None end) row.

(** Every row has a cell for every column. *)
Definition rectangular (df : DataFrame) : Prop :=
  Forall (λ row, length row = length (df_columns df)) (df_rows df).

(** The body has an object under ["data"] with these K-lines. *)
Definition has_klines (j : json) (data : json) (lines : list string) : Prop :=
  dict_get j "data" = Ok data ∧ is_None data = false ∧
  subscript data "klines" = Ok (JArr (JStr <$> lines)).

(** The fetch of no code depends on what was called before. *)
Definition stateless (kw : kwargs) : Prop :=
  ∀ k tr tr', (fetch kw k tr).1 = (fetch kw k tr').1.

(** No reporter fails in the schedule. *)
Definition faultless (sched : list actor) : Prop :=
  forallb (λ a, match a with Fault _ => false | _ => true end) sched = true.

(** 1 when the task has updated the bar. *)
Definition counted (t : task) : nat :=
  match pc t with
  | AtDescribe _ | Finished _ => 1
  | _ => 0
  end.

(** 1 when the task has updated the bar or died while reporting. *)
Definition reported (t : task) : nat :=
  match pc t with
  | AtDescribe _ | Finished _ | Died _ (Some _) => 1
  | _ => 0
  end.


(** The bar is made for as many codes as were submitted, closed when the
    dict is returned and not before, and counts between the tasks that
    have updated it and those that have updated it or died while
    reporting. *)
Definition bar_ok (keys : list string) (s : state) : Prop :=
  ∃ bar, pbar s = Some bar ∧ total bar = length keys ∧
         closed bar = match main s with ReturnedDict => true | _ => false end ∧
         (sum_list_with counted (TASKS s) ≤ n bar)%nat ∧
         (n bar ≤ sum_list_with reported (TASKS s))%nat.

(** What holds of the progress bar in every state of a run on [keys]:
    there is none until the loop is entered, and a good one from then on. *)
Definition BarInv (keys : list string) (s : state) : Prop :=
  match main s with
  | Multi l => l = keys ∧ pbar s = None
  | _ => bar_ok keys s
  end.

(** No task died while reporting. *)
Definition unfaulted (s : state) : Prop :=
  ∀ i t e df, TASKS s !! i = Some t → pc t ≠ Died e (Some df).


(** What holds in every state of a run of [get_quote_history] on the
    string [k]: nothing but the one fetch in the calling thread happens. *)
Definition single_inv (kw : kwargs) (k : string) (s : state) : Prop :=
  TASKS s = [] ∧ dfs s = ∅ ∧ args s = kw ∧
  match main s with
  | Enter v => v = PyStr k ∧ trace s = []
  | Single k' => k' = k ∧ trace s = []
  | ReturnedFrame df =>
      (fetch kw k []).1 = Ok df ∧ trace s = (fetch kw k []).2
  | Raised e =>
      (fetch kw k []).1 = Raise e ∧ trace s = (fetch kw k []).2
  | _ => False
  end.

(** ** The getters, call by call *)

Lemma fetch_trace kw stock_code tr :
  (fetch kw stock_code tr).2 =
  tr ++ [CResolve stock_code; CFetch stock_code (request_of kw stock_code)].
Proof.
  unfold fetch, get_quote_history_single, request_of, bind, lift, ret,
    call_gen_secid, requests_get_json.
  rewrite <- (assoc_L (++)). simpl.
  repeat case_match; reflexivity.
Qed.


Lemma zip_with_cons_replicate (x : json) (rows : list (list json)) row :
  row ∈ zip_with cons (replicate (length rows) x) rows →
  ∃ r, row = x :: r ∧ r ∈ rows.
Proof.
  induction rows as [|r rows IH]; simpl; intros Hin.
  - by apply elem_of_nil in Hin.
  - apply elem_of_cons in Hin as [->|Hin].
    + exists r. split; [done | left].
    + destruct (IH Hin) as (r' & -> & Hr'). exists r'. split; [done | by right].
Qed.

Lemma df_insert_rows column value df df' :
  df_insert column value df = Ok df' →
  df_columns df' = column :: df_columns df ∧
  df_rows df' = zip_with cons value (df_rows df) ∧
  len df' = Nat.min (length value) (len df).
Proof.
  unfold df_insert. repeat case_match; try discriminate.
  intros [= <-]. simpl. repeat split.
  unfold len. simpl. by rewrite length_zip_with.
Qed.

(** What [get_quote_history_single] returns is the placeholder or a frame
    with the name and code columns in front, the code in every row. *)
Lemma fetch_shape kw stock_code tr df :
  (fetch kw stock_code tr).1 = Ok df →
  df = placeholder ∨
  (∃ columns, df_columns df = "股票名称" :: "股票代码" :: columns) ∧
  (∀ row, row ∈ df_rows df → row !! 1%nat = Some (JStr stock_code)).
Proof.
  unfold fetch, get_quote_history_single, bind, lift, ret, call_gen_secid,
    requests_get_json. simpl.
  destruct (provider _ _) as [j|]; simpl; [|discriminate].
  destruct (dict_get j "data") as [data|]; simpl; [|discriminate].
  destruct (is_None data); simpl.
  { intros [= <-]. by left. }
  destruct (subscript data "name") as [stock_name|]; simpl; [|discriminate].
  destruct (subscript data "klines") as [klines|]; simpl; [|discriminate].
  destruct (split_rows klines) as [rows|]; simpl; [|discriminate].
  destruct (DataFrame_of_rows rows _) as [df0|]; simpl; [|discriminate].
  destruct (df_insert "股票代码" _ df0) as [df1|] eqn:H1; simpl; [|discriminate].
  destruct (df_insert "股票名称" _ df1) as [df2|] eqn:H2; simpl; [|discriminate].
  intros [= <-]. right.
  apply df_insert_rows in H1 as (Hc1 & Hr1 & Hl1).
  apply df_insert_rows in H2 as (Hc2 & Hr2 & Hl2).
  split.
  - exists (df_columns df0). by rewrite Hc2, Hc1.
  - intros row Hrow. rewrite Hr2 in Hrow. unfold len in Hrow.
    apply zip_with_cons_replicate in Hrow as (r & -> & Hr).
    rewrite Hr1 in Hr. unfold len in Hr.
    apply zip_with_cons_replicate in Hr as (r' & -> & _). reflexivity.
Qed.

Lemma fetch_shape_tagged kw stock_code tr df :
  (fetch kw stock_code tr).1 = Ok df →
  df = placeholder ∨ tagged stock_code df.
Proof.
  intros H. apply fetch_shape in H as [H|[[columns Hc] Hr]]; [by left|right].
  exists 1%nat. rewrite Hc. split; [done | exact Hr].
Qed.

(** ** Lists of tasks *)

Lemma sum_list_with_insert {A} (f : A → nat) (l : list A) i t t' :
  l !! i = Some t →
  (sum_list_with f (<[i:=t']> l) + f t = sum_list_with f l + f t')%nat.
Proof.
  revert i. induction l as [|x l IH]; intros [|i] H; simplify_eq/=.
  - lia.
  - specialize (IH _ H). lia.
Qed.

Lemma sum_list_with_zero {A} (f : A → nat) (l : list A) :
  (∀ i x, l !! i = Some x → f x = 0%nat) → sum_list_with f l = 0%nat.
Proof.
  induction l as [|x l IH]; intros H; simpl; [done|].
  rewrite (H 0%nat x eq_refl), IH; [done|].
  intros i y Hy. apply (H (S i)). exact Hy.
Qed.

Lemma attempts_app k tr tr' :
  attempts k (tr ++ tr') = (attempts k tr + attempts k tr')%nat.
Proof. unfold attempts. by rewrite filter_app, length_app. Qed.

Lemma attempts_fetch kw k c tr :
  attempts k (fetch kw c tr).2 =
  (attempts k tr + if String.eqb c k then 1 else 0)%nat.
Proof.
  rewrite fetch_trace, attempts_app. f_equal.
  unfold attempts. rewrite !filter_cons, filter_nil.
  cbn [is_fetch_of]. rewrite decide_False by discriminate.
  destruct (String.eqb c k); case_decide; done.
Qed.

Lemma lookup_set_pc (l : list task) j (t' : task) i t :
  <[j:=t']> l !! i = Some t →
  (i = j ∧ t = t') ∨ (i ≠ j ∧ l !! i = Some t).
Proof.
  intros H. apply list_lookup_insert_Some in H as [(-> & -> & _)|[? ?]]; auto.
Qed.

Lemma forallb_lookup {A} (f : A → bool) (l : list A) i x :
  forallb f l = true → l !! i = Some x → f x = true.
Proof.
  revert i. induction l as [|y l IH]; intros [|i] H Hi; simplify_eq/=.
  - by apply andb_true_iff in H as [? _].
  - apply andb_true_iff in H as [_ H]. by eapply IH.
Qed.

Lemma forallb_false_lookup {A} (f : A → bool) (l : list A) :
  forallb f l = false → ∃ i x, l !! i = Some x ∧ f x = false.
Proof.
  induction l as [|x l IH]; simpl; [discriminate|].
  destruct (f x) eqn:Hx; simpl.
  - intros H. destruct (IH H) as (i & y & Hy & Hf). by exists (S i), y.
  - intros _. by exists 0%nat, x.
Qed.

(** ** The invariant holds along every run *)

Ltac step_cases H :=
  unfold step in H;
  destruct (killed _) eqn:Hkilled; [discriminate|];
  match type of H with
  | context [match ?a with Main => _ | _ => _ end] => destruct a
  end;
  [ unfold step_main in H | unfold step_task in H
  | unfold step_fault in H | unfold step_interrupt in H ];
  unfold async_method, update_local_market_stocks_info, ret in H;
  repeat case_match; simplify_eq.

Ltac use_main :=
  repeat match goal with
         | H : main ?s = _, H' : context [main ?s] |- _ =>
             lazymatch H' with H => fail | _ => rewrite H in H' end
         end.

Lemma Inv_init keys kw tries0 :
  Inv keys kw tries0 (get_quote_history_multi keys kw tries0).
Proof. constructor; simpl; done. Qed.

Lemma spawned_set_pc s i t p :
  TASKS s !! i = Some t → spawned (set_pc i t p s) = spawned s.
Proof.
  intros H. unfold spawned, set_pc. simpl.
  rewrite list_fmap_insert. simpl. apply list_insert_id.
  by rewrite list_lookup_fmap, H.
Qed.

Lemma ended_stuck s i t :
  forallb ended (TASKS s) = true → TASKS s !! i = Some t → ended t = true.
Proof. apply forallb_lookup. Qed.

Ltac no_tasks :=
  match goal with
  | H : TASKS ?s = [], H' : TASKS ?s !! _ = Some _ |- _ =>
      rewrite H in H'; discriminate H'
  end.

Ltac all_ended :=
  match goal with
  | H : forallb ended (TASKS ?s) = true, H' : TASKS ?s !! _ = Some ?t,
    Hp : pc ?t = _ |- _ =>
      let He := fresh in
      pose proof (ended_stuck _ _ _ H H') as He;
      unfold ended in He; rewrite Hp in He; discriminate He
  end.

(** The part of the invariant about where the calling thread stands. *)
Lemma Inv_step_control keys kw tries0 a s s' :
  Inv keys kw tries0 s → step a s = Some s' →
  args s' = kw ∧ tries s' = tries0 ∧ in_multi (main s') = true ∧
  (∀ k t rest, main s' = Retry k t rest → t = tries0) ∧
  (∀ l, main s' = Multi l → TASKS s' = [] ∧ dfs s' = ∅) ∧
  (tries0 ≠ 0 → spawned s' ++ pending (main s') = keys) ∧
  (tries0 = 0 → TASKS s' = []) ∧
  (main s' = Close ∨ main s' = ReturnedDict → forallb ended (TASKS s') = true).
Proof.
  intros I H. destruct I. step_cases H; use_main; simpl in *; try done.
  all: repeat split; try done.
  all: try (intros; simplify_eq; eauto; fail).
  all: intros; simplify_eq.
  all: try match goal with H : _ ∨ _ |- _ => destruct H; simplify_eq end.
  all: try (exfalso; first [ no_tasks | all_ended ]; fail).
  all: try (rewrite ?spawned_set_pc by done; eauto; fail).
  all: try match goal with
           | Hf : ∀ l, main ?s = Multi l → _, Hm : main ?s = Multi _ |- _ =>
               destruct (Hf _ Hm); first [ done | exfalso; no_tasks ]
           end.
  all: try match goal with
           | Hf : ?P → TASKS ?s = [], Hp : ?P |- _ =>
               specialize (Hf Hp); exfalso; no_tasks
           end.
  all: try (exfalso; specialize (inv_joined0 ltac:(eauto)); all_ended).
  all: try (specialize (inv_retry0 _ _ _ eq_refl); subst; lia).
  - unfold spawned in *. simpl. rewrite fmap_app, <- (assoc_L (++)). simpl. eauto.
Qed.

Lemma Inv_NoDup_spawned keys kw tries0 s :
  Inv keys kw tries0 s → NoDup keys → NoDup (spawned s).
Proof.
  intros I Hk. destruct (decide (tries0 = 0)) as [H0|H0].
  - unfold spawned. rewrite (inv_spawned0 _ _ _ _ I H0). constructor.
  - rewrite <- (inv_spawned _ _ _ _ I H0) in Hk. by apply NoDup_app in Hk as [? _].
Qed.

Lemma Inv_one_task keys kw tries0 s i j t t' :
  Inv keys kw tries0 s → NoDup keys →
  TASKS s !! i = Some t → TASKS s !! j = Some t' →
  stock_code t = stock_code t' → i = j.
Proof.
  intros I Hk Hi Hj Hc.
  pose proof (Inv_NoDup_spawned _ _ _ _ I Hk) as Hn.
  eapply NoDup_lookup; [exact Hn | |].
  - unfold spawned. rewrite list_lookup_fmap, Hi. reflexivity.
  - unfold spawned. rewrite list_lookup_fmap, Hj. simpl. by rewrite Hc.
Qed.

(** With distinct codes, the task of a code that has not sent its request
    finds the call counter of the code at zero. *)
Lemma Inv_first_attempt keys kw tries0 s i t :
  Inv keys kw tries0 s → NoDup keys →
  TASKS s !! i = Some t → pc t = AtFetch →
  attempts (stock_code t) (trace s) = 0%nat.
Proof.
  intros I Hk Hi Hp. rewrite (inv_attempts _ _ _ _ I).
  apply sum_list_with_zero. intros j x Hx. unfold asked.
  destruct (pc x) eqn:Hpx; [done|..].
  all: destruct (String.eqb_spec (stock_code x) (stock_code t)) as [Hc|]; [|done].
  all: pose proof (Inv_one_task _ _ _ _ _ _ _ _ I Hk Hx Hi Hc); simplify_eq.
  all: congruence.
Qed.

Lemma Inv_step_recorded keys kw tries0 a s s' :
  Inv keys kw tries0 s → step a s = Some s' →
  ∀ i t, TASKS s' !! i = Some t → stored t = true →
         is_Some (dfs s' !! stock_code t).
Proof.
  intros I H. destruct I. step_cases H; simpl in *; try done.
  all: intros i' t' Hl Hs.
  all: try (eauto; fail).
  all: try (destruct (inv_fresh0 _ eq_refl); exfalso; no_tasks).
  all: try (apply lookup_set_pc in Hl as [[-> ->]|[Hne Hl]]; simpl in *;
            [ try done | ]).
  all: try (rewrite lookup_insert_is_Some;
            destruct (decide (stock_code t = stock_code t')); eauto; fail).
  all: try (eauto; fail).
  all: try (apply (inv_recorded0 _ _ ltac:(eassumption)); unfold stored;
            match goal with Hp : pc _ = _ |- _ => by rewrite Hp end).
  - apply lookup_app_Some in Hl as [Hl|[_ Hl]]; [eauto|].
    apply list_lookup_singleton_Some in Hl as [_ <-]. done.
  - rewrite lookup_insert_eq. eauto.
Qed.

Lemma Inv_step_entry keys kw tries0 a s s' :
  Inv keys kw tries0 s → step a s = Some s' →
  ∀ k df, dfs s' !! k = Some df →
          ∃ i t, TASKS s' !! i = Some t ∧ stock_code t = k ∧
                 stored t = true ∧ df_of (pc t) = Some df.
Proof.
  intros I H. destruct I. step_cases H; simpl in *; try done.
  all: intros k df Hk.
  all: try (eauto; fail).
  all: try (by rewrite lookup_empty in Hk).
  all: try match type of Hk with
           | <[ _ := _ ]> _ !! _ = _ =>
               apply lookup_insert_Some in Hk as [[<- <-]|[Hne Hk]];
               [ eexists _, _; split; [ apply list_lookup_insert_eq;
                                        by eapply lookup_lt_Some | done ] | ]
           end.
  all: destruct (inv_entry0 _ _ Hk) as (j & x & Hx & Hc & Hs & Hd).
  all: try (exists j, x; split; [ by apply lookup_app_l_Some | done ]).
  all: destruct (decide (j = i)) as [->|Hji];
    [ simplify_eq; unfold stored in Hs;
      match goal with Hp : pc _ = _ |- _ => rewrite Hp in Hs, Hd end;
      first
        [ discriminate
        | eexists _, _; split;
          [ apply list_lookup_insert_eq; by eapply lookup_lt_Some
          | simpl in *; done ] ]
    | exists j, x; split; [ by rewrite list_lookup_insert_ne | done ] ].
Qed.

Lemma Inv_step_fetched keys kw tries0 a s s' :
  Inv keys kw tries0 s → step a s = Some s' →
  ∀ i t df, TASKS s' !! i = Some t → df_of (pc t) = Some df →
            ∃ tr, (fetch kw (stock_code t) tr).1 = Ok df ∧
                  (NoDup keys → attempts (stock_code t) tr = 0%nat).
Proof.
  intros I H. pose proof I as I'. destruct I'.
  step_cases H; simpl in *; try done.
  all: intros i' t' df Hl Hd.
  all: try (eauto; fail).
  all: try (apply lookup_app_Some in Hl as [Hl|[_ Hl]]; [eauto|];
            apply list_lookup_singleton_Some in Hl as [_ <-]; done).
  all: apply lookup_set_pc in Hl as [[-> ->]|[Hne Hl]]; simpl in *; [|eauto].
  all: try discriminate.
  all: try (eapply inv_fetched0; [eassumption|];
            match goal with Hp : pc _ = _ |- _ => by rewrite Hp end).
  simplify_eq. exists (trace s). split.
  - unfold fetch. by match goal with Hf : _ = (Ok _, _) |- _ => rewrite Hf end.
  - intros Hk. eapply Inv_first_attempt; eauto.
Qed.

Lemma Inv_step_failed keys kw tries0 a s s' :
  Inv keys kw tries0 s → step a s = Some s' →
  ∀ i t e, TASKS s' !! i = Some t → pc t = Died e None →
           ∃ tr, (fetch kw (stock_code t) tr).1 = Raise e ∧
                 (NoDup keys → attempts (stock_code t) tr = 0%nat).
Proof.
  intros I H. pose proof I as I'. destruct I'.
  step_cases H; simpl in *; try done.
  all: intros i' t' e' Hl Hd.
  all: try (eauto; fail).
  all: try (apply lookup_app_Some in Hl as [Hl|[_ Hl]]; [eauto|];
            apply list_lookup_singleton_Some in Hl as [_ <-]; done).
  all: apply lookup_set_pc in Hl as [[-> ->]|[Hne Hl]]; simpl in *; [|eauto].
  all: try discriminate.
  simplify_eq. exists (trace s). split.
  - unfold fetch. by match goal with Hf : _ = (Raise _, _) |- _ => rewrite Hf end.
  - intros Hk. eapply Inv_first_attempt; eauto.
Qed.

Lemma asked_sent k (l : list task) i t p :
  l !! i = Some t → pc t = AtFetch → p ≠ AtFetch →
  sum_list_with (asked k) (<[i:={| stock_code := stock_code t; pc := p |}]> l)
  = (sum_list_with (asked k) l + if String.eqb (stock_code t) k then 1 else 0)%nat.
Proof.
  intros Hl Hp Hne.
  pose proof (sum_list_with_insert (asked k) l i t
                {| stock_code := stock_code t; pc := p |} Hl) as Hsum.
  unfold asked at 2 4 in Hsum. simpl in Hsum. rewrite Hp in Hsum.
  destruct p; try done; lia.
Qed.

Lemma asked_same k (l : list task) i t p :
  l !! i = Some t → pc t ≠ AtFetch → p ≠ AtFetch →
  sum_list_with (asked k) (<[i:={| stock_code := stock_code t; pc := p |}]> l)
  = sum_list_with (asked k) l.
Proof.
  intros Hl Hp Hne.
  pose proof (sum_list_with_insert (asked k) l i t
                {| stock_code := stock_code t; pc := p |} Hl) as Hsum.
  unfold asked at 2 4 in Hsum. simpl in Hsum.
  destruct (pc t); try done; destruct p; try done; lia.
Qed.

Lemma Inv_step_attempts keys kw tries0 a s s' :
  Inv keys kw tries0 s → step a s = Some s' →
  ∀ k, attempts k (trace s') = sum_list_with (asked k) (TASKS s').
Proof.
  intros I H. destruct I.
  step_cases H; simpl in *; try done.
  all: intros k.
  all: try (eauto; fail).
  all: try (rewrite attempts_app, inv_attempts0; unfold attempts; simpl; lia).
  all: try (rewrite sum_list_with_app, <- inv_attempts0; simpl; unfold asked; simpl; lia).
  all: try (rewrite asked_same by (done || congruence); eauto; fail).
  all: rewrite asked_sent by done.
  all: match goal with
       | Hf : get_quote_history_single (stock_code ?t) _ _ _ _ (trace ?s) = (_, ?l)
         |- _ =>
           replace l with (fetch (args s) (stock_code t) (trace s)).2
             by (unfold fetch; by rewrite Hf);
           rewrite attempts_fetch
       end.
  all: by rewrite inv_attempts0.
Qed.

Lemma Inv_step keys kw tries0 a s s' :
  Inv keys kw tries0 s → step a s = Some s' → Inv keys kw tries0 s'.
Proof.
  intros I H.
  destruct (Inv_step_control _ _ _ _ _ _ I H) as (? & ? & ? & ? & ? & ? & ? & ?).
  constructor; try done.
  - by eapply Inv_step_recorded.
  - by eapply Inv_step_entry.
  - by eapply Inv_step_fetched.
  - by eapply Inv_step_failed.
  - by eapply Inv_step_attempts.
Qed.

Lemma exec_app sched1 sched2 s :
  exec (sched1 ++ sched2) s =
  match exec sched1 s with Some s' => exec sched2 s' | None => None end.
Proof.
  revert s. induction sched1 as [|a sched1 IH]; intros s; simpl; [done|].
  destruct (step a s); [apply IH | done].
Qed.

Lemma Inv_exec keys kw tries0 sched s s' :
  Inv keys kw tries0 s → exec sched s = Some s' → Inv keys kw tries0 s'.
Proof.
  revert s. induction sched as [|a sched IH]; intros s I H; simplify_eq/=; [done|].
  destruct (step a s) as [s1|] eqn:Hs; [|done].
  eapply IH; [|exact H]. by eapply Inv_step.
Qed.

(** Every run of [get_quote_history_multi] stays within the invariant. *)
Lemma Inv_run keys kw tries0 sched s :
  exec sched (get_quote_history_multi keys kw tries0) = Some s →
  Inv keys kw tries0 s.
Proof. apply Inv_exec, Inv_init. Qed.

(** ** Runs end *)

Lemma step_alive a s s' :
  is_interrupt a = false → step a s = Some s' → killed s' = false.
Proof. intros Ha H. step_cases H; simpl in *; done. Qed.

Lemma step_killed a s : killed s = true → step a s = None.
Proof. intros H. unfold step. by rewrite H. Qed.

Lemma task_work_set_pc (l : list task) i t p :
  l !! i = Some t →
  (sum_list_with task_work (<[i:={| stock_code := stock_code t; pc := p |}]> l)
   + task_work t
   = sum_list_with task_work l
     + task_work {| stock_code := stock_code t; pc := p |})%nat.
Proof. apply sum_list_with_insert. Qed.

(** Every step but SIGINT uses up work. *)
Lemma step_work a s s' :
  is_interrupt a = false → step a s = Some s' → (work s' < work s)%nat.
Proof.
  intros Ha H. step_cases H; unfold work; simpl in *; try done.
  all: repeat match goal with Hm : main _ = _ |- _ => rewrite Hm; clear Hm end.
  all: simpl.
  all: try lia.
  all: try (rewrite sum_list_with_app; simpl; unfold task_work; simpl; lia).
  all: try match goal with
       | Hl : TASKS ?s !! ?i = Some ?t
         |- context [<[?i:={| stock_code := stock_code ?t; pc := ?p |}]> _] =>
           pose proof (task_work_set_pc _ i t p Hl) as Hsum;
           unfold task_work at 2 4 in Hsum; simpl in Hsum;
           match goal with Hp : pc t = _ |- _ => rewrite Hp in Hsum end; lia
       end.
  destruct stock_codes; simplify_eq/=; lia.
Qed.

Lemma exec_length sched s s' :
  uncancelled sched → exec sched s = Some s' →
  (length sched + work s' ≤ work s)%nat.
Proof.
  revert s. induction sched as [|a sched IH]; intros s Hu H; simplify_eq/=; [lia|].
  destruct (step a s) as [s1|] eqn:Hs; [|done].
  apply andb_true_iff in Hu as [Ha Hu]. apply negb_true_iff in Ha.
  specialize (IH _ Hu H). pose proof (step_work _ _ _ Ha Hs). lia.
Qed.

Lemma exec_alive sched s s' :
  uncancelled sched → exec sched s = Some s' → killed s = false →
  killed s' = false.
Proof.
  revert s. induction sched as [|a sched IH]; intros s Hu H Hk; simplify_eq/=; [done|].
  destruct (step a s) as [s1|] eqn:Hs; [|done].
  apply andb_true_iff in Hu as [Ha Hu]. apply negb_true_iff in Ha.
  eapply IH; eauto using step_alive.
Qed.

(** While the call is running and the process lives, somebody can step. *)
Lemma progress s :
  killed s = false → returned s = false →
  ∃ a s', is_interrupt a = false ∧ step a s = Some s'.
Proof.
  intros Hk Hr. unfold returned in Hr.
  destruct (main s) eqn:Hm; try discriminate.
  all: try (exists Main; unfold step, step_main; rewrite Hk, Hm;
            repeat case_match; eauto; fail).
  destruct (forallb ended (TASKS s)) eqn:He.
  - exists Main. unfold step, step_main. rewrite Hk, Hm, He. eauto.
  - apply forallb_false_lookup in He as (i & t & Ht & He).
    exists (Task i). unfold step, step_task. rewrite Hk, Ht.
    unfold ended in He. repeat case_match; simplify_eq; eauto.
Qed.

(** Every state of a living process can be run on, without SIGINT, until
    the call is over. *)
Lemma completion s :
  killed s = false →
  ∃ sched s', uncancelled sched ∧ exec sched s = Some s' ∧
              returned s' = true ∧ killed s' = false.
Proof.
  remember (work s) as w eqn:Hw. revert s Hw.
  induction (lt_wf w) as [w _ IH]. intros s -> Hk.
  destruct (returned s) eqn:Hr.
  - exists [], s. done.
  - destruct (progress s Hk Hr) as (a & s1 & Ha & Hs).
    destruct (IH (work s1) (step_work _ _ _ Ha Hs) s1 eq_refl
                (step_alive _ _ _ Ha Hs)) as (sched & s' & Hu & He & Hr' & Hk').
    exists (a :: sched), s'. split_and!; try done.
    + unfold uncancelled. simpl. rewrite Ha. exact Hu.
    + simpl. by rewrite Hs.
Qed.



(** ** What the returned dict holds *)

Lemma occurrences_NoDup k codes :
  NoDup codes → k ∈ codes → occurrences k codes = 1%nat.
Proof.
  unfold occurrences. induction 1 as [|c codes Hc Hn IH]; intros Hk.
  - by apply elem_of_nil in Hk.
  - simpl. apply elem_of_cons in Hk as [->|Hk].
    + rewrite String.eqb_refl. rewrite sum_list_with_zero; [done|].
      intros i x Hx. destruct (String.eqb_spec x c) as [->|]; [|done].
      exfalso. apply Hc. by eapply list_elem_of_lookup_2.
    + destruct (String.eqb_spec c k) as [->|]; [done|]. by rewrite IH.
Qed.

Lemma Inv_returned keys kw tries0 s :
  Inv keys kw tries0 s → returned s = true → main s = ReturnedDict.
Proof.
  intros I Hr. pose proof (inv_main _ _ _ _ I) as Hm.
  unfold returned in Hr. by destruct (main s).
Qed.

Lemma Inv_final_spawned keys kw tries0 s :
  Inv keys kw tries0 s → tries0 ≠ 0 → main s = ReturnedDict → spawned s = keys.
Proof.
  intros I Ht Hm. pose proof (inv_spawned _ _ _ _ I Ht) as Hs.
  rewrite Hm in Hs. simpl in Hs. by rewrite app_nil_r in Hs.
Qed.

Lemma Inv_final_ended keys kw tries0 s i t :
  Inv keys kw tries0 s → main s = ReturnedDict →
  TASKS s !! i = Some t → ended t = true.
Proof.
  intros I Hm Ht. eapply ended_stuck; [|exact Ht].
  apply (inv_joined _ _ _ _ I). by right.
Qed.

(** An entry of [dfs] is filed under a submitted code. *)
Lemma Inv_entry_key keys kw tries0 s k df :
  Inv keys kw tries0 s → dfs s !! k = Some df → k ∈ keys.
Proof.
  intros I Hk. destruct (inv_entry _ _ _ _ I _ _ Hk) as (i & t & Ht & <- & _).
  destruct (decide (tries0 = 0)) as [H0|H0].
  - rewrite (inv_spawned0 _ _ _ _ I H0) in Ht. discriminate.
  - rewrite <- (inv_spawned _ _ _ _ I H0). apply elem_of_app. left.
    unfold spawned. apply list_elem_of_fmap. exists t. split; [done|].
    by eapply list_elem_of_lookup_2.
Qed.

(** An entry of [dfs] is what a fetch of its own code returned. *)
Lemma Inv_entry_fetched keys kw tries0 s k df :
  Inv keys kw tries0 s → dfs s !! k = Some df →
  ∃ tr, (fetch kw k tr).1 = Ok df ∧ (NoDup keys → attempts k tr = 0%nat).
Proof.
  intros I Hk. destruct (inv_entry _ _ _ _ I _ _ Hk) as (i & t & Ht & <- & _ & Hd).
  by eapply (inv_fetched _ _ _ _ I).
Qed.

(** Once the dict is returned, every code whose fetch succeeds has its
    entry. *)
Lemma Inv_final_present keys kw tries0 s k :
  Inv keys kw tries0 s → tries0 ≠ 0 → main s = ReturnedDict →
  k ∈ keys → fetch_succeeds kw k → is_Some (dfs s !! k).
Proof.
  intros I H0 Hm Hk Hok.
  rewrite <- (Inv_final_spawned _ _ _ _ I H0 Hm) in Hk.
  unfold spawned in Hk. apply list_elem_of_fmap in Hk as (t & -> & Ht).
  apply list_elem_of_lookup in Ht as [i Ht].
  apply (inv_recorded _ _ _ _ I i t Ht).
  pose proof (Inv_final_ended _ _ _ _ _ _ I Hm Ht) as He.
  unfold ended in He. unfold stored.
  destruct (pc t) as [| | | | |e [df|]] eqn:Hp; try done.
  destruct (inv_failed _ _ _ _ I _ _ _ Ht Hp) as (tr & Hf & _).
  specialize (Hok tr). rewrite Hf in Hok. discriminate.
Qed.

(** A code whose fetch always raises never gets an entry. *)
Lemma Inv_absent keys kw tries0 s k :
  Inv keys kw tries0 s → fetch_fails kw k → dfs s !! k = None.
Proof.
  intros I Hf. destruct (dfs s !! k) as [df|] eqn:Hk; [|done].
  destruct (Inv_entry_fetched _ _ _ _ _ _ I Hk) as (tr & Hok & _).
  specialize (Hf tr). rewrite Hok in Hf. discriminate.
Qed.

Lemma asked_ended k (l : list task) :
  (∀ i t, l !! i = Some t → ended t = true) →
  sum_list_with (asked k) l = occurrences k (stock_code <$> l).
Proof.
  unfold occurrences. induction l as [|t l IH]; intros H; simpl; [done|].
  rewrite IH by (intros i x Hx; apply (H (S i)); exact Hx). f_equal.
  specialize (H 0%nat t eq_refl). unfold ended in H. unfold asked.
  by destruct (pc t).
Qed.

(** Once the dict is returned, a code was requested once for each time it
    was submitted: no request is ever repeated. *)
Lemma Inv_final_attempts keys kw tries0 s k :
  Inv keys kw tries0 s → tries0 ≠ 0 → main s = ReturnedDict →
  attempts k (trace s) = occurrences k keys.
Proof.
  intros I H0 Hm. rewrite (inv_attempts _ _ _ _ I).
  rewrite asked_ended by (intros; by eapply Inv_final_ended).
  fold (spawned s). by rewrite (Inv_final_spawned _ _ _ _ I H0 Hm).
Qed.

(** Every run that SIGINT spares can be run on until the dict is returned. *)
Lemma multi_returns keys kw tries0 sched s :
  uncancelled sched →
  exec sched (get_quote_history_multi keys kw tries0) = Some s →
  ∃ sched' s', uncancelled sched' ∧ exec sched' s = Some s' ∧
               main s' = ReturnedDict ∧ killed s' = false.
Proof.
  intros Hu He.
  destruct (completion s) as (sched' & s' & Hu' & He' & Hr & Hk).
  { by eapply exec_alive. }
  exists sched', s'. split_and!; try done.
  eapply Inv_returned; [|done].
  eapply Inv_exec; [|exact He']. by eapply Inv_run.
Qed.


(** With distinct codes, an entry of [dfs] is never written again. *)
Lemma Inv_step_stable keys kw tries0 a s s' k df :
  Inv keys kw tries0 s → NoDup keys → step a s = Some s' →
  dfs s !! k = Some df → dfs s' !! k = Some df.
Proof.
  intros I Hn H Hk. pose proof I as I'. destruct I'.
  step_cases H; simpl in *; try done.
  1,2: destruct (inv_fresh0 _ eq_refl) as [_ He];
       rewrite He in Hk; by rewrite lookup_empty in Hk.
  destruct (decide (stock_code t = k)) as [<-|Hne]; [|by rewrite lookup_insert_ne].
  exfalso. destruct (inv_entry0 _ _ Hk) as (j & x & Hx & Hc & Hs & _).
  match goal with
  | Ht : TASKS s !! ?i = Some t |- _ =>
      pose proof (Inv_one_task _ _ _ _ _ _ _ _ I Hn Hx Ht Hc)
  end.
  simplify_eq. unfold stored in Hs.
  match goal with Hp : pc _ = _ |- _ => by rewrite Hp in Hs end.
Qed.

Lemma Inv_exec_stable keys kw tries0 sched s s' k df :
  Inv keys kw tries0 s → NoDup keys → exec sched s = Some s' →
  dfs s !! k = Some df → dfs s' !! k = Some df.
Proof.
  revert s. induction sched as [|a sched IH]; intros s I Hn H Hk; simplify_eq/=; [done|].
  destruct (step a s) as [s1|] eqn:Hs; [|done].
  eapply IH; [by eapply Inv_step | done | done |].
  by eapply Inv_step_stable.
Qed.


(** ** The empty batch *)

Lemma idle_step a s s' : idle s → step a s = Some s' → idle s'.
Proof.
  intros (Ht & Htr & Hd & Hm) H. unfold idle.
  step_cases H; simpl in *; try no_tasks.
  all: destruct Hm as [Hm|[Hm|[Hm|[Hm|Hm]]]]; simplify_eq.
  all: split_and!; try done; eauto 10.
Qed.

Lemma idle_exec sched s s' : idle s → exec sched s = Some s' → idle s'.
Proof.
  revert s. induction sched as [|a sched IH]; intros s I H; simplify_eq/=; [done|].
  destruct (step a s) as [s1|] eqn:Hs; [|done].
  eauto using idle_step.
Qed.

(** ** A wrong argument *)

Lemma refused_step v a s s' :
  isinstance_str v = false → has_iter v = false →
  refused v s → step a s = Some s' → refused v s'.
Proof.
  intros Hs Hi (Ht & Htr & Hd & Hm) H. unfold refused.
  step_cases H; simpl in *; try no_tasks.
  all: destruct Hm as [Hm|Hm]; simplify_eq.
  all: try (split_and!; try done; eauto; fail).
  all: destruct v; simplify_eq/=.
Qed.

Lemma refused_exec v sched s s' :
  isinstance_str v = false → has_iter v = false →
  refused v s → exec sched s = Some s' → refused v s'.
Proof.
  intros Hs Hi. revert s.
  induction sched as [|a sched IH]; intros s I H; simplify_eq/=; [done|].
  destruct (step a s) as [s1|] eqn:Hst; [|done].
  eauto using refused_step.
Qed.

Lemma exec_killed sched s s' :
  killed s = true → exec sched s = Some s' → sched = [] ∧ s' = s.
Proof.
  intros Hk He. destruct sched as [|a sched]; simplify_eq/=; [done|].
  by rewrite (step_killed a s Hk) in He.
Qed.


(** * The claims *)

(** C1, as amended.  For every batch of N distinct codes submitted to
    [get_quote_history_multi] with a [tries] other than zero (3 by default)
    and without SIGINT, with a fetch that succeeds for every code: every run
    is at most 6 N + 4 steps long and can be run on until the call returns,
    and the returned dict holds exactly N entries, one for each submitted
    code and none twice, each being a frame the fetch of its own code
    returned. *)
Theorem multi_all_keys keys kw tries0 sched s :
  NoDup keys → tries0 ≠ 0 →
  (∀ k, k ∈ keys → fetch_succeeds kw k) →
  uncancelled sched →
  exec sched (get_quote_history_multi keys kw tries0) = Some s →
  (length sched ≤ 6 * length keys + 4)%nat ∧
  (∃ sched' s', uncancelled sched' ∧ exec sched' s = Some s' ∧
                main s' = ReturnedDict) ∧
  (main s = ReturnedDict →
   size (dfs s) = length keys ∧
   dom (dfs s) = list_to_set keys ∧
   NoDup (map_to_list (dfs s)).*1 ∧
   (∀ k df, dfs s !! k = Some df → ∃ tr, (fetch kw k tr).1 = Ok df)).
Proof.
  intros Hn H0 Hok Hu He. split_and!.
  - pose proof (exec_length _ _ _ Hu He) as Hl. unfold work in Hl at 2.
    simpl in Hl. lia.
  - destruct (multi_returns _ _ _ _ _ Hu He) as (sched' & s' & ? & ? & ? & _).
    by exists sched', s'.
  - intros Hm. pose proof (Inv_run _ _ _ _ _ He) as I.
    assert (dom (dfs s) = list_to_set keys) as Hdom.
    { apply set_eq. intros k. rewrite elem_of_dom, elem_of_list_to_set. split.
      - intros [df Hk]. by eapply Inv_entry_key.
      - intros Hk. eapply Inv_final_present; eauto. }
    split_and!; [|done|apply NoDup_fst_map_to_list|].
    + by rewrite <- size_dom, Hdom, size_list_to_set.
    + intros k df Hk.
      destruct (Inv_entry_fetched _ _ _ _ _ _ I Hk) as (tr & Hok' & _).
      by exists tr.
Qed.


(** C3, on the code.  With distinct codes, a code whose first fetch raises
    gets no entry whatever a later fetch would return, and when the dict
    is returned the code was requested once: nothing is tried again. *)
Theorem multi_first_failure_final keys kw tries0 sched s k :
  NoDup keys →
  (∀ tr, attempts k tr = 0%nat → is_ok (fetch kw k tr).1 = false) →
  exec sched (get_quote_history_multi keys kw tries0) = Some s →
  dfs s !! k = None ∧
  (main s = ReturnedDict → tries0 ≠ 0 → k ∈ keys →
   attempts k (trace s) = 1%nat).
Proof.
  intros Hn Hf He. pose proof (Inv_run _ _ _ _ _ He) as I. split.
  - destruct (dfs s !! k) as [df|] eqn:Hk; [|done].
    destruct (Inv_entry_fetched _ _ _ _ _ _ I Hk) as (tr & Hok & Hz).
    specialize (Hf tr (Hz Hn)). rewrite Hok in Hf. discriminate.
  - intros Hm H0 Hk. rewrite (Inv_final_attempts _ _ _ _ _ I H0 Hm).
    by apply occurrences_NoDup.
Qed.

(** C4, as amended.  When SIGINT arrives while the batch is running, the
    process ends at once: the call has not returned and has not raised, and
    nobody takes a step any more.  At that moment the dict holds the codes
    of exactly the tasks that had written their entry, those of the
    finished tasks among them. *)
Theorem interrupt_kills keys kw tries0 sched s :
  exec (sched ++ [Interrupt]) (get_quote_history_multi keys kw tries0) = Some s →
  killed s = true ∧ returned s = false ∧
  (∀ a, step a s = None) ∧
  (∀ k, is_Some (dfs s !! k) ↔
        ∃ i t, TASKS s !! i = Some t ∧ stock_code t = k ∧ stored t = true) ∧
  (∀ i t df, TASKS s !! i = Some t → pc t = Finished df →
             is_Some (dfs s !! stock_code t)).
Proof.
  intros He. pose proof (Inv_run _ _ _ _ _ He) as I.
  rewrite exec_app in He.
  destruct (exec sched _) as [s0|] eqn:He0; [|done]. simpl in He.
  destruct (step Interrupt s0) as [s1|] eqn:Hs; simplify_eq.
  unfold step, step_interrupt in Hs.
  destruct (killed s0); [done|]. destruct (returned s0) eqn:Hr; simplify_eq.
  split_and!; try done.
  - intros k. split.
    + intros [df Hk]. destruct (inv_entry _ _ _ _ I _ _ Hk) as (i & t & ? & ? & ? & _).
      by exists i, t.
    + intros (i & t & Ht & <- & Hst). by eapply (inv_recorded _ _ _ _ I).
  - intros i t df Ht Hp. eapply (inv_recorded _ _ _ _ I); [exact Ht|].
    unfold stored. by rewrite Hp.
Qed.


(** C6.  On the empty list of codes no task is started, nobody is called
    (no request, no resolver, no refresh of the market table) and the dict
    stays empty, all along every run; and the call can always be run on
    until it returns the empty dict. *)
Theorem multi_empty kw tries0 sched s :
  exec sched (get_quote_history_multi [] kw tries0) = Some s →
  (TASKS s = [] ∧ trace s = [] ∧ dfs s = ∅) ∧
  (killed s = false →
   ∃ sched' s', uncancelled sched' ∧ exec sched' s = Some s' ∧
                main s' = ReturnedDict ∧ dfs s' = ∅ ∧
                TASKS s' = [] ∧ trace s' = []).
Proof.
  intros He.
  assert (idle s) as (Ht & Htr & Hd & _).
  { eapply idle_exec; [|exact He]. unfold idle. simpl. eauto 10. }
  split; [done|]. intros Hk.
  destruct (completion s Hk) as (sched' & s' & Hu & He' & Hr & _).
  assert (idle s') as (Ht' & Htr' & Hd' & Hm').
  { eapply idle_exec; [|exact He'].
    eapply idle_exec; [|exact He]. unfold idle. simpl. eauto 10. }
  exists sched', s'. split_and!; try done.
  unfold returned in Hr.
  destruct Hm' as [Hm|[Hm|[Hm|[Hm|Hm]]]]; rewrite Hm in Hr; done.
Qed.

(** C7, as amended.  Every entry of the dict is filed under a submitted
    code and is what a fetch of that code returned: either the empty
    placeholder, which has the K-line columns alone and so carries no code
    (the code is the key it is filed under), or a frame that carries the
    code in the code column of every row.  With distinct codes an entry,
    once written, is never written again. *)
Theorem entry_placeholder_or_tagged keys kw tries0 sched s k df :
  exec sched (get_quote_history_multi keys kw tries0) = Some s →
  dfs s !! k = Some df →
  k ∈ keys ∧
  (df = placeholder ∨ tagged k df) ∧
  ("股票代码" ∉ EastmoneyKlines.*2 → ¬ tagged k placeholder) ∧
  (NoDup keys → ∀ sched' s', exec sched' s = Some s' → dfs s' !! k = Some df).
Proof.
  intros He Hk. pose proof (Inv_run _ _ _ _ _ He) as I. split_and!.
  - by eapply Inv_entry_key.
  - destruct (Inv_entry_fetched _ _ _ _ _ _ I Hk) as (tr & Hok & _).
    by eapply fetch_shape_tagged.
  - intros Hnot (i & Hi & _). apply Hnot. simpl in Hi.
    by eapply list_elem_of_lookup_2.
  - intros Hn sched' s' He'. by eapply Inv_exec_stable.
Qed.

(** C8.  An argument that is neither a string nor an iterable makes
    [get_quote_history] raise [TypeError] in its first step, and on no run
    is a task started or anybody called; [get_base_info] raises the same
    way. *)
Theorem wrong_argument_raises v kw :
  isinstance_str v = false → has_iter v = false →
  (∃ s', step Main (get_quote_history v kw) = Some s' ∧
         main s' = Raised TypeError ∧ TASKS s' = [] ∧ trace s' = []) ∧
  (∀ sched s, exec sched (get_quote_history v kw) = Some s →
              TASKS s = [] ∧ trace s = [] ∧
              (main s = Enter v ∨ main s = Raised TypeError)) ∧
  get_base_info_dispatch v = ToTypeError.
Proof.
  intros Hs Hi. split_and!.
  - destruct v; simplify_eq/=; eexists; split_and!; reflexivity.
  - intros sched s He.
    assert (refused v s) as (? & ? & _ & ?); [|done].
    eapply refused_exec; [done|done| |exact He].
    unfold refused. simpl. eauto.
  - by destruct v.
Qed.


(** C10.  When the provider answers with [null] under ["data"],
    [get_today_bill] raises, whereas [get_history_bill] and
    [get_quote_history_single] return the empty frame with their
    columns. *)
Theorem null_data_payload stock_code kw tr fields :
  (∀ tr' r, provider tr' r = Ok (JObj fields)) →
  obj_lookup "data" fields = Some JNull →
  (get_today_bill stock_code tr).1 = Raise TypeError ∧
  (get_history_bill stock_code tr).1 = Ok (DataFrame_empty (EastmoneyBills.*2)) ∧
  (get_quote_history_single stock_code (beg kw) (end_ kw) (klt kw) (fqt kw) tr).1
  = Ok (DataFrame_empty (EastmoneyKlines.*2)).
Proof.
  intros Hp Hd.
  unfold get_today_bill, get_history_bill, get_quote_history_single,
    bind, lift, ret, call_gen_secid, requests_get_json.
  rewrite !Hp. simpl. rewrite Hd. done.
Qed.

(** * More about the code *)

(** ** Splitting K-lines into rows *)

Lemma split_comma_nonempty s : split_comma s ≠ [].
Proof.
  destruct s as [|c s]; simpl; [done|].
  destruct (Ascii.eqb c ","); [done|]. by destruct (split_comma s).
Qed.

Lemma concat_split_comma s : String.concat "," (split_comma s) = s.
Proof.
  induction s as [|c s IH]; simpl; [done|].
  destruct (Ascii.eqb_spec c ",") as [->|Hc].
  - pose proof (split_comma_nonempty s) as Hne.
    destruct (split_comma s) as [|hd tl] eqn:Hs; [done|].
    simpl in *. by rewrite IH.
  - pose proof (split_comma_nonempty s) as Hne.
    destruct (split_comma s) as [|hd tl] eqn:Hs; [done|].
    simpl in *. destruct tl; simpl in *; by rewrite <- IH.
Qed.

Lemma row_text_cells line : row_text (cells line) = split_comma line.
Proof.
  unfold row_text, cells. induction (split_comma line) as [|x l IH]; [done|].
  rewrite fmap_cons. cbn [omap list_omap]. by rewrite IH.
Qed.

Lemma split_rows_lines lines :
  split_rows (JArr (JStr <$> lines)) = Ok (cells <$> lines).
Proof.
  assert (result_mapM kline_split (JStr <$> lines) = Ok (cells <$> lines)) as H.
  { induction lines as [|l lines IH]; [done|].
    rewrite !fmap_cons. cbn [result_mapM kline_split]. by rewrite IH. }
  unfold split_rows. cbn [py_iter]. exact H.
Qed.

Lemma row_width_ge rows r : r ∈ rows → (length r ≤ row_width rows)%nat.
Proof.
  unfold row_width. induction rows as [|x rows IH]; intros Hr.
  - by apply elem_of_nil in Hr.
  - simpl. apply elem_of_cons in Hr as [->|Hr]; [lia|]. specialize (IH Hr). lia.
Qed.

Lemma row_width_exact rows w :
  rows ≠ [] → Forall (λ r, length r = w) rows → row_width rows = w.
Proof.
  unfold row_width. induction rows as [|x rows IH]; intros Hne Hall; [done|].
  apply Forall_cons in Hall as [Hx Hall]. simpl.
  destruct rows as [|y rows]; [simpl; lia|].
  rewrite IH by done. lia.
Qed.

Lemma pad_row_length w r : (length r ≤ w)%nat → length (pad_row w r) = w.
Proof. intros H. unfold pad_row. rewrite length_app, length_replicate. lia. Qed.

Lemma pad_row_full w r : length r = w → pad_row w r = r.
Proof.
  intros <-. unfold pad_row. rewrite Nat.sub_diag. simpl. by rewrite app_nil_r.
Qed.

Lemma DataFrame_of_rows_exact rows columns :
  Forall (λ r, length r = length columns) rows →
  DataFrame_of_rows rows columns =
  Ok {| df_columns := columns; df_rows := rows |}.
Proof.
  intros Hall. unfold DataFrame_of_rows. destruct rows as [|r rows]; [done|].
  rewrite (row_width_exact _ (length columns)) by done.
  rewrite Nat.eqb_refl. do 2 f_equal.
  apply list_eq. intros i. rewrite list_lookup_fmap.
  destruct ((r :: rows) !! i) as [x|] eqn:Hx; simpl; [|done].
  f_equal. apply pad_row_full. rewrite Forall_lookup in Hall. by eapply Hall.
Qed.

Lemma DataFrame_of_rows_wide rows columns r :
  r ∈ rows → (length columns < length r)%nat →
  DataFrame_of_rows rows columns = Raise ValueError.
Proof.
  intros Hr Hlt. unfold DataFrame_of_rows.
  destruct rows as [|x rows]; [by apply elem_of_nil in Hr|].
  pose proof (row_width_ge _ _ Hr) as Hw.
  destruct (Nat.eqb_spec (row_width (x :: rows)) (length columns)); [lia|done].
Qed.

Lemma DataFrame_of_rows_rectangular rows columns df :
  DataFrame_of_rows rows columns = Ok df →
  rectangular df ∧ df_columns df = columns ∧ len df = length rows.
Proof.
  unfold DataFrame_of_rows, rectangular, len.
  destruct rows as [|x rows]; [intros [= <-]; simpl; by split_and!|].
  destruct (Nat.eqb_spec (row_width (x :: rows)) (length columns)) as [Hw|];
    [|done].
  intros [= <-]. simpl. split_and!; [|done|by rewrite length_fmap].
  rewrite <- Hw. apply Forall_forall. intros r Hr.
  change (r ∈ pad_row (row_width (x :: rows)) <$> (x :: rows)) in Hr.
  apply list_elem_of_fmap in Hr as (r0 & -> & Hr0).
  apply pad_row_length. by apply row_width_ge.
Qed.

Lemma df_insert_rectangular column value df df' :
  df_insert column value df = Ok df' → rectangular df → rectangular df'.
Proof.
  intros H Hrect. pose proof H as H'.
  apply df_insert_rows in H as (Hc & Hr & _).
  unfold rectangular in *. rewrite Hc, Hr. clear Hc Hr H'.
  revert value. induction Hrect as [|r rows Hlen Hrect IH]; intros value.
  - destruct value; constructor.
  - destruct value as [|v value]; simpl; [constructor|].
    constructor; [simpl; by rewrite Hlen | apply IH].
Qed.

Lemma zip_with_cons_replicate_eq (x : json) (rows : list (list json)) :
  zip_with cons (replicate (length rows) x) rows = (cons x) <$> rows.
Proof. induction rows as [|r rows IH]; simpl; [done|]. by rewrite IH. Qed.

Lemma df_insert_fresh column (x : json) df :
  column ∉ df_columns df →
  df_insert column (replicate (len df) x) df =
  Ok {| df_columns := column :: df_columns df;
        df_rows := (cons x) <$> df_rows df |}.
Proof.
  intros Hc. unfold df_insert. rewrite bool_decide_eq_false_2 by done.
  rewrite length_replicate, Nat.eqb_refl. simpl.
  unfold len. by rewrite zip_with_cons_replicate_eq.
Qed.

(** ** The blocking getters on a body with K-lines *)

Lemma fetch_rows kw k tr j data name lines :
  provider (tr ++ [CResolve k]) (request_of kw k) = Ok j →
  has_klines j data lines →
  subscript data "name" = Ok name →
  Forall (λ l, length (split_comma l) = length EastmoneyKlines) lines →
  "股票代码" ∉ EastmoneyKlines.*2 → "股票名称" ∉ EastmoneyKlines.*2 →
  (fetch kw k tr).1 =
  Ok {| df_columns := "股票名称" :: "股票代码" :: EastmoneyKlines.*2;
        df_rows := (λ l, name :: JStr k :: cells l) <$> lines |}.
Proof.
  intros Hp (Hd & Hn & Hk) Hname Hall Hcode Hnm.
  unfold fetch, get_quote_history_single, bind, lift, ret, call_gen_secid,
    requests_get_json.
  fold (request_of kw k). rewrite Hp, Hd, Hn, Hname, Hk, split_rows_lines.
  rewrite DataFrame_of_rows_exact.
  2:{ apply Forall_fmap. eapply Forall_impl; [exact Hall|]. intros l Hl. simpl.
      unfold cells. by rewrite !length_fmap in *. }
  rewrite df_insert_fresh by done. simpl.
  set (df1 := {| df_columns := "股票代码" :: EastmoneyKlines.*2;
                 df_rows := cons (JStr k) <$> (cells <$> lines) |}).
  rewrite (df_insert_fresh "股票名称" name df1).
  2:{ simpl. intros [Heq|Hin]%elem_of_cons; [discriminate | done]. }
  simpl. do 2 f_equal. rewrite <- !list_fmap_compose. done.
Qed.

(** X1.  On an answer with data, a name and K-lines that each have a field
    for every column of the table, [get_quote_history_single] returns one
    row for each K-line, in their order: the name, the code, then the
    fields of the line, under the name and code columns followed by the
    table's. *)
Theorem single_rows kw k tr j data name lines :
  provider (tr ++ [CResolve k]) (request_of kw k) = Ok j →
  has_klines j data lines →
  subscript data "name" = Ok name →
  Forall (λ l, length (split_comma l) = length EastmoneyKlines) lines →
  "股票代码" ∉ EastmoneyKlines.*2 → "股票名称" ∉ EastmoneyKlines.*2 →
  ∃ df, (fetch kw k tr).1 = Ok df ∧
        df_columns df = "股票名称" :: "股票代码" :: EastmoneyKlines.*2 ∧
        len df = length lines ∧
        ∀ i line, lines !! i = Some line →
                  df_rows df !! i = Some (name :: JStr k :: cells line) ∧
                  String.concat "," (row_text (cells line)) = line.
Proof.
  intros Hp Hk Hname Hall Hcode Hnm. eexists. split.
  { by eapply fetch_rows. }
  split_and!; [done|unfold len; simpl; by rewrite length_fmap|].
  intros i line Hi. simpl. rewrite list_lookup_fmap, Hi. split; [done|].
  by rewrite row_text_cells, concat_split_comma.
Qed.

(** X2.  A K-line with more fields than the table has columns makes
    [get_quote_history_single] raise [ValueError], whatever the other lines
    are. *)
Theorem single_wide_line kw k tr j data name lines line :
  provider (tr ++ [CResolve k]) (request_of kw k) = Ok j →
  has_klines j data lines →
  subscript data "name" = Ok name →
  line ∈ lines →
  (length EastmoneyKlines < length (split_comma line))%nat →
  (fetch kw k tr).1 = Raise ValueError.
Proof.
  intros Hp (Hd & Hn & Hk) Hname Hin Hlt.
  unfold fetch, get_quote_history_single, bind, lift, ret, call_gen_secid,
    requests_get_json.
  fold (request_of kw k). rewrite Hp, Hd, Hn, Hname, Hk, split_rows_lines.
  rewrite (DataFrame_of_rows_wide _ _ (cells line)); [done| |].
  - apply list_elem_of_fmap. by exists line.
  - unfold cells. by rewrite !length_fmap.
Qed.

(** X3.  A code with data but no K-line gets a frame without rows that has
    the name and code columns, so it is not the frame a code without data
    gets: the two empty results differ in their columns. *)
Theorem single_no_klines kw k tr j data name :
  provider (tr ++ [CResolve k]) (request_of kw k) = Ok j →
  has_klines j data [] →
  subscript data "name" = Ok name →
  "股票代码" ∉ EastmoneyKlines.*2 → "股票名称" ∉ EastmoneyKlines.*2 →
  ∃ df, (fetch kw k tr).1 = Ok df ∧
        df_rows df = [] ∧
        df_columns df = "股票名称" :: "股票代码" :: EastmoneyKlines.*2 ∧
        df ≠ placeholder.
Proof.
  intros Hp Hk Hname Hcode Hnm. eexists. split.
  { eapply fetch_rows; eauto. }
  split_and!; [done|done|].
  intros Heq. apply (f_equal (λ d, length (df_columns d))) in Heq.
  simpl in Heq. lia.
Qed.

(** X4.  On an answer with data and K-lines that each have a field for every
    column of the bills table, [get_history_bill] returns one row for each
    line, in their order, holding the fields of the line and no code; a row
    joined with commas is its line again. *)
Theorem history_bill_rows k tr j data lines :
  (∀ r, provider (tr ++ [CResolve k]) r = Ok j) →
  has_klines j data lines →
  Forall (λ l, length (split_comma l) = length EastmoneyBills) lines →
  ∃ df, (get_history_bill k tr).1 = Ok df ∧
        df_columns df = EastmoneyBills.*2 ∧
        len df = length lines ∧
        ∀ i line, lines !! i = Some line →
                  ∃ row, df_rows df !! i = Some row ∧
                         String.concat "," (row_text row) = line.
Proof.
  intros Hp (Hd & Hn & Hk) Hall.
  unfold get_history_bill, bind, lift, ret, call_gen_secid, requests_get_json.
  rewrite Hp, Hd, Hn, Hk, split_rows_lines.
  rewrite DataFrame_of_rows_exact.
  2:{ apply Forall_fmap. eapply Forall_impl; [exact Hall|]. intros l Hl. simpl.
      unfold cells. by rewrite !length_fmap in *. }
  eexists. split; [reflexivity|]. simpl.
  split_and!; [done|unfold len; simpl; by rewrite length_fmap|].
  intros i line Hi. exists (cells line). rewrite list_lookup_fmap, Hi.
  split; [done|]. by rewrite row_text_cells, concat_split_comma.
Qed.

(** X5.  On an answer with data and K-lines of six fields each,
    [get_today_bill] returns one row for each line, in their order: the
    code, then the six fields, under the code column followed by the six
    flow columns. *)
Theorem today_bill_rows k tr j data lines :
  (∀ r, provider (tr ++ [CResolve k]) r = Ok j) →
  subscript j "data" = Ok data →
  subscript data "klines" = Ok (JArr (JStr <$> lines)) →
  Forall (λ l, length (split_comma l) = 6%nat) lines →
  (get_today_bill k tr).1 =
  Ok {| df_columns := "股票代码" :: today_bill_columns;
        df_rows := (λ l, JStr k :: cells l) <$> lines |}.
Proof.
  intros Hp Hd Hk Hall.
  unfold get_today_bill, bind, lift, ret, call_gen_secid, requests_get_json.
  rewrite Hp, Hd, Hk, split_rows_lines.
  rewrite DataFrame_of_rows_exact.
  2:{ apply Forall_fmap. eapply Forall_impl; [exact Hall|]. intros l Hl. simpl.
      unfold cells. by rewrite !length_fmap in *. }
  rewrite df_insert_fresh.
  2:{ simpl. apply (bool_decide_unpack _). vm_compute. exact I. }
  simpl. do 2 f_equal. by rewrite <- list_fmap_compose.
Qed.

(** X6.  When the answer has no ["data"] at all, [get_today_bill] raises
    [KeyError], whereas [get_history_bill] and [get_quote_history_single]
    return the empty frame with their columns, as they do for [null]. *)
Theorem missing_data_payload stock_code kw tr fields :
  (∀ tr' r, provider tr' r = Ok (JObj fields)) →
  obj_lookup "data" fields = None →
  (get_today_bill stock_code tr).1 = Raise KeyError ∧
  (get_history_bill stock_code tr).1 = Ok (DataFrame_empty (EastmoneyBills.*2)) ∧
  (fetch kw stock_code tr).1 = Ok placeholder.
Proof.
  intros Hp Hd.
  unfold fetch, get_today_bill, get_history_bill, get_quote_history_single,
    bind, lift, ret, call_gen_secid, requests_get_json.
  rewrite !Hp. simpl. rewrite Hd. done.
Qed.

(** X7.  Each blocking getter asks the resolver once and then sends one
    request, whatever the answer and whether it returns or raises: the
    trace grows by these two calls and nothing is sent a second time. *)
Theorem getters_one_request stock_code kw tr :
  (fetch kw stock_code tr).2
  = tr ++ [CResolve stock_code; CFetch stock_code (request_of kw stock_code)] ∧
  (∃ r, (get_history_bill stock_code tr).2
        = tr ++ [CResolve stock_code; CFetch stock_code r] ∧
        req_url r = "http://push2his.eastmoney.com/api/qt/stock/fflow/daykline/get" ∧
        ("secid", gen_secid stock_code) ∈ req_params r) ∧
  (∃ r, (get_today_bill stock_code tr).2
        = tr ++ [CResolve stock_code; CFetch stock_code r] ∧
        req_url r = "http://push2.eastmoney.com/api/qt/stock/fflow/kline/get" ∧
        ("secid", gen_secid stock_code) ∈ req_params r).
Proof.
  split_and!.
  - apply fetch_trace.
  - eexists. split_and!.
    + unfold get_history_bill, bind, lift, ret, call_gen_secid, requests_get_json.
      rewrite <- (assoc_L (++)). simpl. repeat case_match; reflexivity.
    + done.
    + simpl. set_solver.
  - eexists. split_and!.
    + unfold get_today_bill, bind, lift, ret, call_gen_secid, requests_get_json.
      rewrite <- (assoc_L (++)). simpl. repeat case_match; reflexivity.
    + done.
    + simpl. set_solver.
Qed.

Lemma fetch_rectangular kw k tr df :
  (fetch kw k tr).1 = Ok df → rectangular df.
Proof.
  unfold fetch, get_quote_history_single, bind, lift, ret, call_gen_secid,
    requests_get_json. simpl.
  destruct (provider _ _) as [j|]; simpl; [|discriminate].
  destruct (dict_get j "data") as [data|]; simpl; [|discriminate].
  destruct (is_None data); simpl.
  { intros [= <-]. constructor. }
  destruct (subscript data "name") as [stock_name|]; simpl; [|discriminate].
  destruct (subscript data "klines") as [klines|]; simpl; [|discriminate].
  destruct (split_rows klines) as [rows|]; simpl; [|discriminate].
  destruct (DataFrame_of_rows rows _) as [df0|] eqn:H0; simpl; [|discriminate].
  destruct (df_insert "股票代码" _ df0) as [df1|] eqn:H1; simpl; [|discriminate].
  destruct (df_insert "股票名称" _ df1) as [df2|] eqn:H2; simpl; [|discriminate].
  intros [= <-].
  apply DataFrame_of_rows_rectangular in H0 as (Hr & _ & _).
  eauto using df_insert_rectangular.
Qed.

(** X8.  Every frame a blocking getter returns has a cell for every column
    in every row, and so has every entry of the dict of the bulk fetch, in
    every state of every run. *)
Theorem frames_rectangular keys kw tries0 sched s k tr df :
  ((fetch kw k tr).1 = Ok df → rectangular df) ∧
  ((get_history_bill k tr).1 = Ok df → rectangular df) ∧
  ((get_today_bill k tr).1 = Ok df → rectangular df) ∧
  (exec sched (get_quote_history_multi keys kw tries0) = Some s →
   dfs s !! k = Some df → rectangular df).
Proof.
  split_and!.
  - apply fetch_rectangular.
  - unfold get_history_bill, bind, lift, ret, call_gen_secid, requests_get_json.
    simpl.
    destruct (provider _ _) as [j|]; simpl; [|discriminate].
    destruct (dict_get j "data") as [data|]; simpl; [|discriminate].
    destruct (is_None data); simpl.
    { intros [= <-]. constructor. }
    destruct (subscript data "klines") as [klines|]; simpl; [|discriminate].
    destruct (split_rows klines) as [rows|]; simpl; [|discriminate].
    destruct (DataFrame_of_rows rows _) as [df0|] eqn:H0; simpl; [|discriminate].
    intros [= <-]. by apply DataFrame_of_rows_rectangular in H0 as (Hr & _ & _).
  - unfold get_today_bill, bind, lift, ret, call_gen_secid, requests_get_json.
    simpl.
    destruct (provider _ _) as [j|]; simpl; [|discriminate].
    destruct (subscript j "data") as [data|]; simpl; [|discriminate].
    destruct (subscript data "klines") as [klines|]; simpl; [|discriminate].
    destruct (split_rows klines) as [rows|]; simpl; [|discriminate].
    destruct (DataFrame_of_rows rows _) as [df0|] eqn:H0; simpl; [|discriminate].
    destruct (df_insert "股票代码" _ df0) as [df1|] eqn:H1; simpl; [|discriminate].
    intros [= <-].
    apply DataFrame_of_rows_rectangular in H0 as (Hr & _ & _).
    eauto using df_insert_rectangular.
  - intros He Hk. pose proof (Inv_run _ _ _ _ _ He) as I.
    destruct (Inv_entry_fetched _ _ _ _ _ _ I Hk) as (tr' & Hok & _).
    by eapply fetch_rectangular.
Qed.

(** ** The entry point *)

Lemma entry_run v kw sched s :
  exec sched (get_quote_history v kw) = Some s →
  (main s = Enter v ∧ TASKS s = [] ∧ trace s = [] ∧ dfs s = ∅) ∨
  ∃ sched' s1, sched = Main :: sched' ∧
               step Main (get_quote_history v kw) = Some s1 ∧
               exec sched' s1 = Some s.
Proof.
  destruct sched as [|a sched]; intros He; simplify_eq/=; [by left|].
  destruct (step a (get_quote_history v kw)) as [s1|] eqn:Hs; [|done].
  destruct a; try (by vm_compute in Hs).
  - right. by exists sched, s1.
  - left. vm_compute in Hs. simplify_eq.
    apply exec_killed in He as [_ ->]; done.
Qed.

Lemma entry_multi v kw :
  isinstance_str v = false → has_iter v = true →
  step Main (get_quote_history v kw)
  = Some (get_quote_history_multi (list_of v) kw 3).
Proof. intros Hs Hi. by destruct v. Qed.

Lemma Inv_final_dom keys kw tries0 s :
  Inv keys kw tries0 s → tries0 ≠ 0 → main s = ReturnedDict →
  (∀ k, k ∈ keys → fetch_succeeds kw k) →
  dom (dfs s) = list_to_set keys.
Proof.
  intros I H0 Hm Hok. apply set_eq. intros k.
  rewrite elem_of_dom, elem_of_list_to_set. split.
  - intros [df Hk]. by eapply Inv_entry_key.
  - intros Hk. eapply Inv_final_present; eauto.
Qed.

(** X9.  Through the entry point, a list or tuple of N distinct codes whose
    fetches all succeed gives, without SIGINT, a call that never raises, can
    always be run on until it returns, and returns a dict of exactly those
    N codes: [get_quote_history] hands the codes to the bulk fetch with
    three tries. *)
Theorem entry_list_all_keys v kw sched s :
  isinstance_str v = false → has_iter v = true →
  NoDup (list_of v) →
  (∀ k, k ∈ list_of v → fetch_succeeds kw k) →
  uncancelled sched →
  exec sched (get_quote_history v kw) = Some s →
  (∀ e, main s ≠ Raised e) ∧
  (∃ sched' s', uncancelled sched' ∧ exec sched' s = Some s' ∧
                main s' = ReturnedDict) ∧
  (main s = ReturnedDict →
   dom (dfs s) = list_to_set (list_of v) ∧ size (dfs s) = length (list_of v)).
Proof.
  intros Hs Hi Hn Hok Hu He.
  assert (∀ sched0 s0, exec sched0 (get_quote_history v kw) = Some s0 →
                       main s0 = Enter v ∨ Inv (list_of v) kw 3 s0) as Hrun.
  { intros sched0 s0 He0.
    apply entry_run in He0 as [(? & _)|(sched' & s1 & -> & Hs1 & He1)]; [by left|].
    right. rewrite entry_multi in Hs1 by done. simplify_eq. by eapply Inv_run. }
  split_and!.
  - intros e Hm. destruct (Hrun _ _ He) as [Hent|I]; [congruence|].
    pose proof (inv_main _ _ _ _ I) as Him. by rewrite Hm in Him.
  - destruct (completion s) as (sched' & s' & Hu' & He' & Hr & _).
    { by eapply exec_alive. }
    exists sched', s'. split_and!; try done.
    assert (exec (sched ++ sched') (get_quote_history v kw) = Some s') as Htot.
    { by rewrite exec_app, He. }
    destruct (Hrun _ _ Htot) as [Hent|I].
    + unfold returned in Hr. by rewrite Hent in Hr.
    + by eapply Inv_returned.
  - intros Hm. destruct (Hrun _ _ He) as [Hent|I]; [congruence|].
    assert (dom (dfs s) = list_to_set (list_of v)) as Hdom.
    { eapply Inv_final_dom; eauto. }
    split; [done|]. by rewrite <- size_dom, Hdom, size_list_to_set.
Qed.

Lemma single_inv_step kw k a s s' :
  single_inv kw k s → step a s = Some s' → single_inv kw k s'.
Proof.
  intros (Ht & Hd & Ha & Hm) H. unfold step in H.
  destruct (killed s); [done|]. destruct a.
  - unfold step_main in H. destruct (main s) eqn:Hmain; try done.
    + destruct Hm as [-> Htr]. simpl in H. injection H as <-.
      unfold single_inv. simpl. done.
    + destruct Hm as [-> Htr].
      destruct (get_quote_history_single _ _ _ _ _ _) as [[df|e] tr] eqn:Hf;
        injection H as <-; unfold single_inv; simpl; unfold fetch;
        rewrite <- Ha, <- Htr, Hf; done.
  - unfold step_task in H. by rewrite Ht in H.
  - unfold step_fault in H. by rewrite Ht in H.
  - unfold step_interrupt in H. destruct (returned s); simplify_eq.
    unfold single_inv. simpl. done.
Qed.

Lemma single_inv_exec kw k sched s s' :
  single_inv kw k s → exec sched s = Some s' → single_inv kw k s'.
Proof.
  revert s. induction sched as [|a sched IH]; intros s I H; simplify_eq/=; [done|].
  destruct (step a s) as [s1|] eqn:Hs; [|done].
  eauto using single_inv_step.
Qed.

(** X10.  A string is one code, never a sequence of characters:
    [get_quote_history] fetches it once, in the calling thread, starts no
    task and fills no dict, and after two steps the call is over with the
    frame of [get_quote_history_single], or has raised what that raised. *)
Theorem entry_string_single k kw :
  (∀ sched s, exec sched (get_quote_history (PyStr k) kw) = Some s →
     TASKS s = [] ∧ dfs s = ∅ ∧
     (∀ df, main s = ReturnedFrame df →
            (fetch kw k []).1 = Ok df ∧
            trace s = [CResolve k; CFetch k (request_of kw k)]) ∧
     (∀ e, main s = Raised e →
           (fetch kw k []).1 = Raise e ∧
           trace s = [CResolve k; CFetch k (request_of kw k)]) ∧
     main s ≠ ReturnedDict) ∧
  (∃ s, exec [Main; Main] (get_quote_history (PyStr k) kw) = Some s ∧
        returned s = true).
Proof.
  split.
  - intros sched s He.
    assert (single_inv kw k s) as (Ht & Hd & _ & Hm).
    { eapply single_inv_exec; [|exact He]. unfold single_inv. simpl. done. }
    pose proof (fetch_trace kw k []) as Htr. simpl in Htr.
    split_and!; try done.
    + intros df Hdf. rewrite Hdf in Hm. destruct Hm as [? ->]. done.
    + intros e Hdf. rewrite Hdf in Hm. destruct Hm as [? ->]. done.
    + intros Hdf. by rewrite Hdf in Hm.
  - assert (step Main (get_quote_history (PyStr k) kw)
            = Some (with_main (Single k) (get_quote_history (PyStr k) kw))) as H1
      by reflexivity.
    cbn [exec]. rewrite H1. unfold step, step_main. simpl.
    destruct (get_quote_history_single _ _ _ _ _ _) as [[df|e] tr]; eauto.
Qed.

(** ** What the returned dict is made of *)



Lemma remove_dups_length_le (l : list string) :
  (length (remove_dups l) ≤ length l)%nat.
Proof.
  induction l as [|x l IH]; simpl; [done|]. case_decide; simpl; lia.
Qed.

Lemma remove_dups_length_lt (l : list string) :
  ¬ NoDup l → (length (remove_dups l) < length l)%nat.
Proof.
  induction l as [|x l IH]; intros Hdup; simpl.
  - exfalso. apply Hdup. constructor.
  - pose proof (remove_dups_length_le l). case_decide as Hx; simpl; [lia|].
    assert (¬ NoDup l) as Hl by (intros Hl; apply Hdup; by constructor).
    specialize (IH Hl). lia.
Qed.

(** X12.  A list with repeated codes is not deduplicated: every occurrence
    gets its own task and its own request, while the returned dict has one
    entry for each distinct code, so fewer entries than codes were
    submitted as soon as one is repeated. *)
Theorem multi_repeated_codes keys kw tries0 sched s :
  tries0 ≠ 0 →
  (∀ k, k ∈ keys → fetch_succeeds kw k) →
  exec sched (get_quote_history_multi keys kw tries0) = Some s →
  main s = ReturnedDict →
  length (TASKS s) = length keys ∧
  (∀ k, attempts k (trace s) = occurrences k keys) ∧
  dom (dfs s) = list_to_set keys ∧
  size (dfs s) = length (remove_dups keys) ∧
  (¬ NoDup keys → (size (dfs s) < length keys)%nat).
Proof.
  intros H0 Hok He Hm. pose proof (Inv_run _ _ _ _ _ He) as I.
  assert (dom (dfs s) = list_to_set keys) as Hdom by by eapply Inv_final_dom.
  assert (size (dfs s) = length (remove_dups keys)) as Hsize.
  { rewrite <- size_dom, Hdom.
    replace (list_to_set keys : gset string) with
      (list_to_set (remove_dups keys) : gset string).
    - apply size_list_to_set, NoDup_remove_dups.
    - apply set_eq. intros k.
      by rewrite !elem_of_list_to_set, elem_of_remove_dups. }
  split_and!; try done.
  - rewrite <- (Inv_final_spawned _ _ _ _ I H0 Hm). unfold spawned.
    by rewrite length_fmap.
  - intros k. by eapply Inv_final_attempts.
  - intros Hdup. rewrite Hsize. by apply remove_dups_length_lt.
Qed.

Lemma Inv_final_lookup keys kw tries0 s k :
  Inv keys kw tries0 s → tries0 ≠ 0 → main s = ReturnedDict → stateless kw →
  dfs s !! k =
  if bool_decide (k ∈ keys)
  then match (fetch kw k []).1 with Ok df => Some df | Raise _ => None end
  else None.
Proof.
  intros I H0 Hm Hst. case_bool_decide as Hk.
  - destruct (fetch kw k []).1 as [df|e] eqn:Hf.
    + destruct (Inv_final_present _ _ _ _ k I H0 Hm Hk) as [df' Hdf'].
      { intros tr. by rewrite (Hst k tr []), Hf. }
      destruct (Inv_entry_fetched _ _ _ _ _ _ I Hdf') as (tr & Hok & _).
      rewrite (Hst k tr []), Hf in Hok. by simplify_eq.
    + eapply Inv_absent; [done|]. intros tr. by rewrite (Hst k tr []), Hf.
  - destruct (dfs s !! k) as [df|] eqn:Hl; [|done].
    exfalso. apply Hk. by eapply Inv_entry_key.
Qed.

(** X13.  When the provider's answers do not depend on what was asked
    before, the returned dict does not depend on the order in which the
    tasks ran: any two runs that return, return the same dict, which holds
    for each submitted code the frame its fetch returns, if it returns
    one. *)
Theorem multi_order_independent keys kw tries0 sched1 sched2 s1 s2 :
  stateless kw →
  exec sched1 (get_quote_history_multi keys kw tries0) = Some s1 →
  exec sched2 (get_quote_history_multi keys kw tries0) = Some s2 →
  main s1 = ReturnedDict → main s2 = ReturnedDict →
  dfs s1 = dfs s2 ∧
  (tries0 ≠ 0 → ∀ k df, dfs s1 !! k = Some df ↔
                         k ∈ keys ∧ (fetch kw k []).1 = Ok df).
Proof.
  intros Hst He1 He2 Hm1 Hm2.
  pose proof (Inv_run _ _ _ _ _ He1) as I1.
  pose proof (Inv_run _ _ _ _ _ He2) as I2. split.
  - destruct (decide (tries0 = 0)) as [H0|H0].
    + apply map_eq. intros k.
      assert (∀ s, Inv keys kw tries0 s → dfs s !! k = None) as Hnone.
      { intros s I. destruct (dfs s !! k) as [df|] eqn:Hl; [|done].
        destruct (inv_entry _ _ _ _ I _ _ Hl) as (i & t & Ht & _).
        rewrite (inv_spawned0 _ _ _ _ I H0) in Ht. done. }
      by rewrite !Hnone.
    + apply map_eq. intros k.
      by rewrite (Inv_final_lookup _ _ _ _ k I1 H0 Hm1 Hst),
        (Inv_final_lookup _ _ _ _ k I2 H0 Hm2 Hst).
  - intros H0 k df. rewrite (Inv_final_lookup _ _ _ _ k I1 H0 Hm1 Hst).
    case_bool_decide as Hk.
    + destruct (fetch kw k []).1 as [df'|e]; split.
      * intros [= ->]. done.
      * intros [_ [= ->]]. done.
      * done.
      * intros [_ ?]. done.
    + split; [done|]. intros [? _]. done.
Qed.

(** ** The progress bar *)

Lemma sum_list_with_le_length {A} (f : A → nat) (l : list A) :
  (∀ x, f x ≤ 1)%nat → (sum_list_with f l ≤ length l)%nat.
Proof.
  intros Hf. induction l as [|x l IH]; simpl; [done|]. specialize (Hf x). lia.
Qed.


Lemma sum_list_with_all {A} (f : A → nat) (l : list A) :
  (∀ i x, l !! i = Some x → f x = 1%nat) → sum_list_with f l = length l.
Proof.
  induction l as [|x l IH]; intros H; simpl; [done|].
  rewrite (H 0%nat x eq_refl), IH; [done|].
  intros i y Hy. apply (H (S i)). exact Hy.
Qed.

Lemma Inv_tasks_le keys kw tries0 s :
  Inv keys kw tries0 s → (length (TASKS s) ≤ length keys)%nat.
Proof.
  intros I. destruct (decide (tries0 = 0)) as [H0|H0].
  - rewrite (inv_spawned0 _ _ _ _ I H0). simpl. lia.
  - rewrite <- (inv_spawned _ _ _ _ I H0). unfold spawned.
    rewrite length_app, length_fmap. lia.
Qed.

Lemma BarInv_init keys kw tries0 :
  BarInv keys (get_quote_history_multi keys kw tries0).
Proof. unfold BarInv. simpl. done. Qed.

Lemma BarInv_tasks keys kw tries0 s i t :
  Inv keys kw tries0 s → BarInv keys s → TASKS s !! i = Some t → bar_ok keys s.
Proof.
  intros I B Ht. unfold BarInv in B. destruct (main s) eqn:Hm; try done.
  destruct (inv_fresh _ _ _ _ I _ Hm) as [Hnil _]. by rewrite Hnil in Ht.
Qed.

Lemma BarInv_same_main keys s s' :
  main s' = main s → (∀ l, main s ≠ Multi l) → bar_ok keys s' → BarInv keys s'.
Proof.
  intros Hm Hne B. unfold BarInv. rewrite Hm.
  destruct (main s) eqn:Hs; try done. by destruct (Hne stock_codes).
Qed.

Lemma tasks_not_multi keys kw tries0 s i t :
  Inv keys kw tries0 s → TASKS s !! i = Some t → ∀ l, main s ≠ Multi l.
Proof.
  intros I Ht l Hm. destruct (inv_fresh _ _ _ _ I _ Hm) as [Hnil _].
  by rewrite Hnil in Ht.
Qed.

(** A step of task [i] from [t] to [t'] keeps the bar good when the bar
    moves with the task. *)
Lemma bar_ok_update keys s s' i t t' bar bar' :
  bar_ok keys s → pbar s = Some bar → TASKS s !! i = Some t →
  main s' = main s → pbar s' = Some bar' → TASKS s' = <[i:=t']> (TASKS s) →
  total bar' = total bar → closed bar' = closed bar →
  (counted t' + n bar ≤ n bar' + counted t)%nat →
  (n bar' + reported t ≤ n bar + reported t')%nat →
  bar_ok keys s'.
Proof.
  intros (bar0 & Hb0 & Htot & Hcl & Hlo & Hhi) Hb Ht Hm Hb' Hts Ht' Hc' Hlo' Hhi'.
  rewrite Hb in Hb0. simplify_eq. exists bar'.
  pose proof (sum_list_with_insert counted (TASKS s) i t t' Ht) as Hc.
  pose proof (sum_list_with_insert reported (TASKS s) i t t' Ht) as Hr.
  rewrite Hm, Hts. split_and!; [done|congruence|congruence| |]; lia.
Qed.

Ltac bar_step Bok Hb Ht Hp :=
  eapply BarInv_same_main; [reflexivity|done|];
  eapply (bar_ok_update _ _ _ _ _ _ _ _ Bok Hb Ht);
  [reflexivity|first [reflexivity | exact Hb]|reflexivity|reflexivity
  |reflexivity|..];
  unfold counted, reported; simpl; rewrite Hp; simpl; lia.

Lemma BarInv_step keys kw tries0 a s s' :
  Inv keys kw tries0 s → BarInv keys s → step a s = Some s' → BarInv keys s'.
Proof.
  intros I B H. unfold step in H. destruct (killed s); [done|]. destruct a.
  - pose proof (inv_main _ _ _ _ I) as Him.
    unfold step_main in H. unfold BarInv, bar_ok in B.
    destruct (main s) eqn:Hmain; try done.
    + destruct B as [-> Hnone].
      destruct (inv_fresh _ _ _ _ I _ Hmain) as [Hnil _].
      unfold update_local_market_stocks_info, ret in H.
      destruct (Nat.eqb _ _); simpl in H; injection H as <-.
      all: unfold BarInv, bar_ok; simpl; rewrite Hnil; simpl.
      all: eexists; split_and!; try reflexivity; simpl; lia.
    + destruct rest; injection H as <-; unfold BarInv, bar_ok; simpl;
        (destruct B as (bar & ? & ? & ? & ? & ?); exists bar; by split_and!).
    + destruct B as (bar & ? & ? & ? & Hlo & Hhi).
      destruct (_tries =? 0); simpl in H; injection H as <-;
        unfold BarInv, bar_ok; simpl; exists bar; split_and!; try done.
      all: rewrite sum_list_with_app; cbn [sum_list_with counted reported pc]; lia.
    + destruct (forallb ended (TASKS s)); [|done]. injection H as <-.
      unfold BarInv, bar_ok. simpl.
      destruct B as (bar & ? & ? & ? & ? & ?); exists bar; by split_and!.
    + injection H as <-. unfold BarInv, bar_ok. simpl.
      destruct B as (bar & -> & ? & ? & ? & ?). simpl.
      eexists. split_and!; [reflexivity|done..].
  - unfold step_task in H. destruct (TASKS s !! i) as [t|] eqn:Ht; [|done].
    pose proof (BarInv_tasks _ _ _ _ _ _ I B Ht) as Bok.
    pose proof (tasks_not_multi _ _ _ _ _ _ I Ht) as Hnm.
    pose proof Bok as (bar & Hb & _).
    rewrite Hb in H.
    destruct (pc t) eqn:Hp; try done.
    + destruct (get_quote_history_single _ _ _ _ _ _) as [[df|e] tr];
        injection H as <-; bar_step Bok Hb Ht Hp.
    + injection H as <-. bar_step Bok Hb Ht Hp.
    + injection H as <-. bar_step Bok Hb Ht Hp.
    + injection H as <-. bar_step Bok Hb Ht Hp.
  - unfold step_fault in H. destruct (TASKS s !! i) as [t|] eqn:Ht; [|done].
    pose proof (BarInv_tasks _ _ _ _ _ _ I B Ht) as Bok.
    pose proof (tasks_not_multi _ _ _ _ _ _ I Ht) as Hnm.
    pose proof Bok as (bar & Hb & _).
    destruct (pc t) eqn:Hp; try done; injection H as <-; bar_step Bok Hb Ht Hp.
  - unfold step_interrupt in H. destruct (returned s); simplify_eq.
    unfold BarInv, bar_ok in *. simpl. done.
Qed.

Lemma BarInv_exec keys kw tries0 sched s s' :
  Inv keys kw tries0 s → BarInv keys s → exec sched s = Some s' →
  BarInv keys s'.
Proof.
  revert s. induction sched as [|a sched IH]; intros s I B H; simplify_eq/=; [done|].
  destruct (step a s) as [s1|] eqn:Hs; [|done].
  eapply IH; [| |exact H]; eauto using Inv_step, BarInv_step.
Qed.

Lemma BarInv_run keys kw tries0 sched s :
  exec sched (get_quote_history_multi keys kw tries0) = Some s → BarInv keys s.
Proof.
  intros He. eapply BarInv_exec; [apply Inv_init|apply BarInv_init|exact He].
Qed.

Lemma unfaulted_step keys kw tries0 a s s' :
  Inv keys kw tries0 s → BarInv keys s → unfaulted s →
  match a with Fault _ => False | _ => True end →
  step a s = Some s' → unfaulted s'.
Proof.
  intros I B U Ha H. unfold step in H. destruct (killed s); [done|].
  destruct a; try done.
  - unfold step_main, async_method, update_local_market_stocks_info, ret in H.
    repeat case_match; simplify_eq; simpl; try done.
    intros i t e df Ht. simpl in Ht.
    apply lookup_app_Some in Ht as [Ht|[_ Ht]]; [by eapply U|].
    apply list_lookup_singleton_Some in Ht as [_ <-]. done.
  - unfold step_task in H. destruct (TASKS s !! i) as [t|] eqn:Ht; [|done].
    pose proof (BarInv_tasks _ _ _ _ _ _ I B Ht) as (bar & Hb & _).
    rewrite Hb in H.
    assert (∀ p tr d b, (∀ e df, p ≠ Died e (Some df)) →
                        unfaulted (set_pc i t p
                                     (with_pbar b (with_dfs d (with_trace tr s)))))
      as Hset.
    { intros p tr d b Hpc j x e df Hx. simpl in Hx.
      apply lookup_set_pc in Hx as [[-> ->]|[_ Hx]]; [apply Hpc | by eapply U]. }
    destruct (pc t) eqn:Hp; try done.
    + destruct (get_quote_history_single _ _ _ _ _ _) as [[df|e] tr];
        injection H as <-.
      * by apply (Hset (AtStore df) tr (dfs s) (pbar s)).
      * by apply (Hset (Died e None) tr (dfs s) (pbar s)).
    + injection H as <-.
      by apply (Hset (AtUpdate _df) (trace s) (<[stock_code t:=_df]> (dfs s)) (pbar s)).
    + injection H as <-.
      by apply (Hset (AtDescribe _df) (trace s) (dfs s) (Some (update 1 bar))).
    + injection H as <-.
      by apply (Hset (Finished _df) (trace s) (dfs s)
                  (Some (set_description_str ("Processing: " +:+ stock_code t) bar))).
  - unfold step_interrupt in H. destruct (returned s); simplify_eq. done.
Qed.

Lemma unfaulted_exec keys kw tries0 sched s s' :
  Inv keys kw tries0 s → BarInv keys s → unfaulted s → faultless sched →
  exec sched s = Some s' → unfaulted s'.
Proof.
  revert s. induction sched as [|a sched IH]; intros s I B U Hf H;
    simplify_eq/=; [done|].
  destruct (step a s) as [s1|] eqn:Hs; [|done].
  apply andb_true_iff in Hf as [Ha Hf].
  eapply IH; [| | | exact Hf | exact H].
  - by eapply Inv_step.
  - by eapply BarInv_step.
  - eapply unfaulted_step; eauto. by destruct a.
Qed.

Lemma bar_at_return keys kw tries0 sched s :
  exec sched (get_quote_history_multi keys kw tries0) = Some s →
  main s = ReturnedDict → bar_ok keys s.
Proof.
  intros He Hm. pose proof (BarInv_run _ _ _ _ _ He) as B.
  unfold BarInv in B. by rewrite Hm in B.
Qed.

(** X14.  The progress bar of the bulk fetch is made for as many codes as
    were submitted, never counts more than that many, is closed when the
    dict is returned and at no moment before, and is there at the return. *)
Theorem bar_bounded keys kw tries0 sched s :
  exec sched (get_quote_history_multi keys kw tries0) = Some s →
  (∀ bar, pbar s = Some bar →
          total bar = length keys ∧ (n bar ≤ total bar)%nat ∧
          (closed bar = true ↔ main s = ReturnedDict)) ∧
  (main s = ReturnedDict → is_Some (pbar s)).
Proof.
  intros He. pose proof (Inv_run _ _ _ _ _ He) as I.
  pose proof (BarInv_run _ _ _ _ _ He) as B. split.
  - intros bar Hb. unfold BarInv in B.
    assert (bar_ok keys s) as (bar0 & Hb0 & Htot & Hcl & _ & Hhi).
    { destruct (main s); try done. destruct B as [_ Hnone]. congruence. }
    rewrite Hb in Hb0. simplify_eq.
    pose proof (sum_list_with_le_length reported (TASKS s)) as Hle.
    pose proof (Inv_tasks_le _ _ _ _ I) as Hlen.
    split_and!; [done| |].
    + rewrite Htot. etrans; [exact Hhi|]. etrans; [apply Hle|done].
      intros x. unfold reported. repeat case_match; lia.
    + rewrite Hcl. destruct (main s); split; done.
  - intros Hm. destruct (bar_at_return _ _ _ _ _ He Hm) as (bar & -> & _). eauto.
Qed.

(** X15.  When every fetch succeeds and no reporter call fails, the bar
    stands at its total when the dict is returned: every code was counted
    once. *)
Theorem bar_full keys kw tries0 sched s :
  tries0 ≠ 0 → faultless sched →
  (∀ k, k ∈ keys → fetch_succeeds kw k) →
  exec sched (get_quote_history_multi keys kw tries0) = Some s →
  main s = ReturnedDict →
  ∃ bar, pbar s = Some bar ∧ n bar = length keys ∧ total bar = length keys.
Proof.
  intros H0 Hf Hok He Hm. pose proof (Inv_run _ _ _ _ _ He) as I.
  destruct (bar_at_return _ _ _ _ _ He Hm) as (bar & Hb & Htot & _ & Hlo & Hhi).
  assert (unfaulted s) as U.
  { eapply unfaulted_exec; [apply Inv_init|apply BarInv_init| |exact Hf|exact He].
    intros i t e df Ht. done. }
  exists bar. split_and!; [done| |done].
  assert (sum_list_with counted (TASKS s) = length (TASKS s)) as Hall.
  { apply sum_list_with_all. intros i t Ht.
    pose proof (Inv_final_ended _ _ _ _ _ _ I Hm Ht) as Hend.
    unfold ended in Hend. unfold counted.
    destruct (pc t) as [| | | | |e [df|]] eqn:Hp; try done.
    - by destruct (U i t e df Ht).
    - destruct (inv_failed _ _ _ _ I _ _ _ Ht Hp) as (tr & Hfail & _).
      assert (stock_code t ∈ keys) as Hk.
      { rewrite <- (Inv_final_spawned _ _ _ _ I H0 Hm). unfold spawned.
        apply list_elem_of_fmap. exists t. split; [done|].
        by eapply list_elem_of_lookup_2. }
      specialize (Hok _ Hk tr). by rewrite Hfail in Hok. }
  pose proof (sum_list_with_le_length reported (TASKS s)) as Hle.
  assert (length (TASKS s) = length keys) as Hlen.
  { rewrite <- (Inv_final_spawned _ _ _ _ I H0 Hm). unfold spawned.
    by rewrite length_fmap. }
  assert (sum_list_with reported (TASKS s) ≤ length (TASKS s))%nat.
  { apply Hle. intros x. unfold reported. repeat case_match; lia. }
  lia.
Qed.


(** ** The number of tries *)



(** ** Whatever the provider does *)





End Getters.

(** * A small provider to run the machine on *)

Definition demo_klines : list (string * string) :=
  [("f51", "日期"); ("f52", "开盘"); ("f53", "收盘")].

Definition demo_bills : list (string * string) :=
  [("f51", "日期"); ("f52", "主力净流入")].

Definition demo_headers : list (string * string) :=
  [("User-Agent", "Mozilla/5.0")].

Definition demo_gen_secid (stock_code : string) : string := "1." +:+ stock_code.

Definition demo_urlencode (params : list (string * string)) : string :=
  String.concat "&" ((λ p, p.1 +:+ "=" +:+ p.2) <$> params).

Definition demo_body : json :=
  JObj [("data",
         JObj [("name", JStr "demo");
               ("klines", JArr [JStr "2021-01-04,10,11"; JStr "2021-01-05,11,12"])])].

(** Answers every request. *)
Definition provider_ok : list call → Request → result json :=
  λ _ _, Ok demo_body.


(** Has data for no code. *)
Definition provider_no_data : list call → Request → result json :=
  λ _ _, Ok (JObj [("data", JNull)]).

(** Fails the first request made for a code and answers the later ones; the
    code is the one the resolver was asked about last. *)
Definition provider_flaky : list call → Request → result json :=
  λ tr _, match last tr with
          | Some (CResolve k) =>
              if Nat.eqb (attempts k tr) 0 then Raise RequestException
              else Ok demo_body
          | _ => Ok demo_body
          end.

Definition demo_exec (provider : list call → Request → result json) :
    list actor → state → option state :=
  exec demo_klines demo_headers demo_gen_secid demo_urlencode provider.

Definition demo_fetch (provider : list call → Request → result json) :
    kwargs → string → Py DataFrame :=
  fetch demo_klines demo_headers demo_gen_secid demo_urlencode provider.

Definition demo_multi (stock_codes : list string) (tries : Z) : state :=
  get_quote_history_multi stock_codes default_kwargs tries.

Definition demo_placeholder : DataFrame := placeholder demo_klines.

(** The frame [provider_ok] makes [get_quote_history_single] return. *)
Definition demo_frame (stock_code : string) : DataFrame :=
  {| df_columns := ["股票名称"; "股票代码"; "日期"; "开盘"; "收盘"];
     df_rows :=
       [ [JStr "demo"; JStr stock_code; JStr "2021-01-04"; JStr "10"; JStr "11"];
         [JStr "demo"; JStr stock_code; JStr "2021-01-05"; JStr "11"; JStr "12"] ] |}.

(** Two tasks, interleaved, both to the end. *)
Definition sched_two : list actor :=
  [Main; Main; Main; Task 0; Main; Main; Task 1; Task 0; Task 1; Task 1;
   Task 0; Task 0; Task 1; Main; Main; Main].

(** One task to the end. *)
Definition sched_one : list actor :=
  [Main; Main; Main; Main; Task 0; Task 0; Task 0; Task 0; Main; Main].

(** One task that dies in its fetch. *)
Definition sched_one_dead : list actor :=
  [Main; Main; Main; Main; Task 0; Main; Main].

(** The loop with nothing to start. *)
Definition sched_none : list actor := [Main; Main; Main; Main].

(** The loop with one code and no try. *)
Definition sched_zero_tries : list actor := [Main; Main; Main; Main; Main; Main].

(** Two tasks started, the first to its end, then SIGINT. *)
Definition sched_interrupted : list actor :=
  [Main; Main; Main; Main; Main; Task 0; Task 0; Task 0; Task 0].

(** Two tasks started, the first about to update the bar. *)
Definition sched_reporting : list actor :=
  [Main; Main; Main; Main; Main; Task 0; Task 0].

(** The K-lines of [demo_body] and the object they sit in. *)
Definition demo_lines : list string := ["2021-01-04,10,11"; "2021-01-05,11,12"].

Definition demo_data : json :=
  JObj [("name", JStr "demo"); ("klines", JArr (JStr <$> demo_lines))].

(** A K-line with a field more than [demo_klines] has columns. *)
Definition demo_data_wide : json :=
  JObj [("name", JStr "demo"); ("klines", JArr [JStr "2021-01-04,10,11,12"])].

Definition provider_wide : list call → Request → result json :=
  λ _ _, Ok (JObj [("data", demo_data_wide)]).

(** A listed code with no K-line in the range asked for. *)
Definition demo_data_no_klines : json :=
  JObj [("name", JStr "demo"); ("klines", JArr [])].

Definition provider_no_klines : list call → Request → result json :=
  λ _ _, Ok (JObj [("data", demo_data_no_klines)]).

(** Daily bills, as wide as [demo_bills]. *)
Definition demo_bill_lines : list string := ["2021-01-04,5"; "2021-01-05,-3"].

Definition demo_bill_data : json :=
  JObj [("klines", JArr (JStr <$> demo_bill_lines))].

Definition provider_bills : list call → Request → result json :=
  λ _ _, Ok (JObj [("data", demo_bill_data)]).

(** Bills by the minute, six fields each. *)
Definition demo_today_lines : list string :=
  ["2021-01-04 09:31,1,2,3,4,5"; "2021-01-04 09:32,2,3,4,5,6"].

Definition demo_today_data : json :=
  JObj [("klines", JArr (JStr <$> demo_today_lines))].

Definition provider_today : list call → Request → result json :=
  λ _ _, Ok (JObj [("data", demo_today_data)]).

(** A body with no ["data"] at all. *)
Definition provider_bare : list call → Request → result json :=
  λ _ _, Ok (JObj [("rc", JNum 0)]).

(** Two tasks, the second to its end before the first begins. *)
Definition sched_two_in_turn : list actor :=
  [Main; Main; Main; Main; Main; Main; Task 1; Task 1; Task 1; Task 1;
   Task 0; Task 0; Task 0; Task 0; Main; Main].


Lemma provider_ok_succeeds k :
  fetch_succeeds demo_klines demo_headers demo_gen_secid demo_urlencode
    provider_ok default_kwargs k.
Proof. intros tr. reflexivity. Qed.



Lemma provider_flaky_first k tr :
  attempts k tr = 0%nat →
  is_ok (demo_fetch provider_flaky default_kwargs k tr).1 = false.
Proof.
  intros H.
  unfold demo_fetch, fetch, get_quote_history_single, bind, lift, ret,
    call_gen_secid, requests_get_json, provider_flaky.
  rewrite last_snoc, attempts_app, H. reflexivity.
Qed.

(** ** The theorems at work *)

Lemma multi_all_keys_witness :
  ∃ s, demo_exec provider_ok sched_two (demo_multi ["600519"; "000001"] 3) = Some s ∧
       main s = ReturnedDict ∧
       size (dfs s) = 2%nat ∧
       dom (dfs s) = list_to_set ["600519"; "000001"].
Proof.
  eexists. split; [vm_compute; reflexivity|].
  split; [reflexivity|].
  edestruct (multi_all_keys demo_klines demo_headers demo_gen_secid
               demo_urlencode provider_ok ["600519"; "000001"]
               default_kwargs 3 sched_two) as (_ & _ & H).
  - apply (bool_decide_unpack _). vm_compute. exact I.
  - lia.
  - intros k _. apply provider_ok_succeeds.
  - reflexivity.
  - vm_compute. reflexivity.
  - destruct (H eq_refl) as (Hsize & Hdom & _). split; [exact Hsize | exact Hdom].
Defined.

(** C1, as the claim has it, fails when [tries] is zero: [retry] then calls
    nothing, no task is started, and the dict comes back empty though the
    provider would have answered. *)
Lemma multi_zero_tries_counterexample :
  ∃ s, NoDup ["600519"] ∧
       (∀ k, k ∈ ["600519"] →
             fetch_succeeds demo_klines demo_headers demo_gen_secid
               demo_urlencode provider_ok default_kwargs k) ∧
       uncancelled sched_zero_tries ∧
       demo_exec provider_ok sched_zero_tries (demo_multi ["600519"] 0) = Some s ∧
       main s = ReturnedDict ∧
       TASKS s = [] ∧
       size (dfs s) ≠ length ["600519"].
Proof.
  eexists. split_and!.
  - apply (bool_decide_unpack _). vm_compute. exact I.
  - intros k _. apply provider_ok_succeeds.
  - reflexivity.
  - vm_compute. reflexivity.
  - reflexivity.
  - reflexivity.
  - vm_compute. discriminate.
Qed.



Lemma multi_first_failure_final_witness :
  ∃ s, demo_exec provider_flaky sched_one_dead (demo_multi ["600519"] 3) = Some s ∧
       main s = ReturnedDict ∧
       is_ok (demo_fetch provider_flaky default_kwargs "600519" (trace s)).1 = true ∧
       dfs s !! "600519" = None ∧
       attempts "600519" (trace s) = 1%nat.
Proof.
  eexists. split; [vm_compute; reflexivity|].
  split; [reflexivity|]. split; [vm_compute; reflexivity|].
  edestruct (multi_first_failure_final demo_klines demo_headers demo_gen_secid
               demo_urlencode provider_flaky ["600519"] default_kwargs 3
               sched_one_dead) as [H1 H2].
  - apply (bool_decide_unpack _). vm_compute. exact I.
  - apply provider_flaky_first.
  - vm_compute. reflexivity.
  - split; [exact H1|]. apply H2; [reflexivity | lia | by left].
Defined.

Lemma interrupt_kills_witness :
  ∃ s, demo_exec provider_ok (sched_interrupted ++ [Interrupt])
         (demo_multi ["600519"; "000001"] 3) = Some s ∧
       killed s = true ∧ returned s = false ∧
       is_Some (dfs s !! "600519") ∧ dfs s !! "000001" = None.
Proof.
  eexists. split; [vm_compute; reflexivity|].
  edestruct (interrupt_kills demo_klines demo_headers demo_gen_secid
               demo_urlencode provider_ok ["600519"; "000001"] default_kwargs 3
               sched_interrupted) as (Hk & Hr & _ & _ & Hdone).
  - vm_compute. reflexivity.
  - split; [exact Hk|]. split; [exact Hr|]. split.
    + apply (Hdone 0%nat _ _ eq_refl eq_refl).
    + vm_compute. reflexivity.
Defined.

(** C4, as the claim has it, fails: SIGINT after one of two tasks has
    finished ends the process, and from there no run reaches a return of
    the dict. *)
Lemma interrupt_no_return_counterexample :
  ∃ s, demo_exec provider_ok (sched_interrupted ++ [Interrupt])
         (demo_multi ["600519"; "000001"] 3) = Some s ∧
       length (filter (λ t, ended t = true) (TASKS s)) = 1%nat ∧
       length (TASKS s) = 2%nat ∧
       (∀ sched' s', demo_exec provider_ok sched' s = Some s' →
                     main s' ≠ ReturnedDict).
Proof.
  eexists. split_and!.
  - vm_compute. reflexivity.
  - vm_compute. reflexivity.
  - reflexivity.
  - intros sched' s' He.
    apply exec_killed in He as [_ ->]; [discriminate | reflexivity].
Qed.


Lemma multi_empty_witness :
  ∃ s, demo_exec provider_ok sched_none (demo_multi [] 3) = Some s ∧
       main s = ReturnedDict ∧
       TASKS s = [] ∧ trace s = [] ∧ dfs s = ∅.
Proof.
  eexists. split; [vm_compute; reflexivity|].
  split; [reflexivity|].
  edestruct (multi_empty demo_klines demo_headers demo_gen_secid demo_urlencode
               provider_ok default_kwargs 3 sched_none) as [H _].
  - vm_compute. reflexivity.
  - exact H.
Defined.

Lemma entry_placeholder_or_tagged_witness :
  ∃ s, demo_exec provider_ok sched_one (demo_multi ["600519"] 3) = Some s ∧
       dfs s !! "600519" = Some (demo_frame "600519") ∧
       (demo_frame "600519" = demo_placeholder ∨ tagged "600519" (demo_frame "600519")).
Proof.
  eexists. split; [vm_compute; reflexivity|].
  split; [vm_compute; reflexivity|].
  eapply (λ s He Hk,
            proj1 (proj2 (entry_placeholder_or_tagged demo_klines demo_headers
                            demo_gen_secid demo_urlencode provider_ok ["600519"]
                            default_kwargs 3 sched_one s "600519"
                            (demo_frame "600519") He Hk))).
  - vm_compute. reflexivity.
  - vm_compute. reflexivity.
Defined.

(** C7, as the claim has it, fails: the entry of a code the provider has no
    data for is the empty frame with the K-line columns alone; it has no
    code column and holds the code nowhere. *)
Lemma placeholder_untagged_counterexample :
  ∃ s, demo_exec provider_no_data sched_one (demo_multi ["600519"] 3) = Some s ∧
       main s = ReturnedDict ∧
       dfs s !! "600519" = Some demo_placeholder ∧
       df_rows demo_placeholder = [] ∧
       ("股票代码" ∉ df_columns demo_placeholder) ∧
       ¬ tagged "600519" demo_placeholder.
Proof.
  eexists. split_and!.
  - vm_compute. reflexivity.
  - reflexivity.
  - vm_compute. reflexivity.
  - reflexivity.
  - apply (bool_decide_unpack _). vm_compute. exact I.
  - intros (i & Hi & _). simpl in Hi.
    destruct i as [|[|[|i]]]; simpl in Hi; discriminate.
Qed.

Lemma wrong_argument_raises_witness :
  isinstance_str (PyInt 600519) = false ∧ has_iter (PyInt 600519) = false ∧
  ∃ s', step demo_klines demo_headers demo_gen_secid demo_urlencode provider_ok
          Main (get_quote_history (PyInt 600519) default_kwargs) = Some s' ∧
        main s' = Raised TypeError ∧ TASKS s' = [] ∧ trace s' = [].
Proof.
  split; [reflexivity|]. split; [reflexivity|].
  edestruct (wrong_argument_raises demo_klines demo_headers demo_gen_secid
               demo_urlencode provider_ok (PyInt 600519) default_kwargs)
    as (H & _ & _).
  - reflexivity.
  - reflexivity.
  - exact H.
Defined.


Lemma null_data_payload_witness :
  (get_today_bill demo_headers demo_gen_secid provider_no_data "600519" []).1
  = Raise TypeError ∧
  (get_history_bill demo_bills demo_headers demo_gen_secid provider_no_data
     "600519" []).1
  = Ok (DataFrame_empty ["日期"; "主力净流入"]) ∧
  (get_quote_history_single demo_klines demo_headers demo_gen_secid demo_urlencode
     provider_no_data "600519" "19000101" "20500101" 101 1 []).1
  = Ok (DataFrame_empty ["日期"; "开盘"; "收盘"]).
Proof.
  apply (null_data_payload demo_klines demo_bills demo_headers demo_gen_secid
           demo_urlencode provider_no_data "600519" default_kwargs []
           [("data", JNull)]).
  - intros tr' r. reflexivity.
  - reflexivity.
Defined.

Lemma single_rows_witness :
  ∃ df, (demo_fetch provider_ok default_kwargs "600519" []).1 = Ok df ∧
        len df = 2%nat ∧
        df_rows df !! 1%nat =
          Some [JStr "demo"; JStr "600519"; JStr "2021-01-05"; JStr "11"; JStr "12"].
Proof.
  destruct (single_rows demo_klines demo_headers demo_gen_secid demo_urlencode
              provider_ok default_kwargs "600519" [] demo_body demo_data
              (JStr "demo") demo_lines) as (df & H1 & _ & H2 & H3).
  - reflexivity.
  - split; [reflexivity|]. split; reflexivity.
  - reflexivity.
  - repeat constructor.
  - apply (bool_decide_unpack _). vm_compute. exact I.
  - apply (bool_decide_unpack _). vm_compute. exact I.
  - exists df. split; [exact H1|]. split; [exact H2|].
    exact (proj1 (H3 1%nat "2021-01-05,11,12" eq_refl)).
Defined.

Lemma single_wide_line_witness :
  (demo_fetch provider_wide default_kwargs "600519" []).1 = Raise ValueError.
Proof.
  apply (single_wide_line demo_klines demo_headers demo_gen_secid demo_urlencode
           provider_wide default_kwargs "600519" []
           (JObj [("data", demo_data_wide)]) demo_data_wide (JStr "demo")
           ["2021-01-04,10,11,12"] "2021-01-04,10,11,12").
  - reflexivity.
  - split; [reflexivity|]. split; reflexivity.
  - reflexivity.
  - left.
  - vm_compute. lia.
Defined.

Lemma single_no_klines_witness :
  ∃ df, (demo_fetch provider_no_klines default_kwargs "600519" []).1 = Ok df ∧
        df_rows df = [] ∧
        df_columns df = ["股票名称"; "股票代码"; "日期"; "开盘"; "收盘"] ∧
        df ≠ demo_placeholder.
Proof.
  apply (single_no_klines demo_klines demo_headers demo_gen_secid demo_urlencode
           provider_no_klines default_kwargs "600519" []
           (JObj [("data", demo_data_no_klines)]) demo_data_no_klines
           (JStr "demo")).
  - reflexivity.
  - split; [reflexivity|]. split; reflexivity.
  - reflexivity.
  - apply (bool_decide_unpack _). vm_compute. exact I.
  - apply (bool_decide_unpack _). vm_compute. exact I.
Defined.

Lemma history_bill_rows_witness :
  ∃ df, (get_history_bill demo_bills demo_headers demo_gen_secid provider_bills
           "600519" []).1 = Ok df ∧
        df_columns df = ["日期"; "主力净流入"] ∧
        len df = 2%nat ∧
        ∃ row, df_rows df !! 1%nat = Some row ∧
               String.concat "," (row_text row) = "2021-01-05,-3".
Proof.
  destruct (history_bill_rows demo_bills demo_headers demo_gen_secid
              provider_bills "600519" [] (JObj [("data", demo_bill_data)])
              demo_bill_data demo_bill_lines) as (df & H1 & H2 & H3 & H4).
  - intros r. reflexivity.
  - split; [reflexivity|]. split; reflexivity.
  - repeat constructor.
  - exists df. split; [exact H1|]. split; [exact H2|]. split; [exact H3|].
    exact (H4 1%nat "2021-01-05,-3" eq_refl).
Defined.

Lemma today_bill_rows_witness :
  (get_today_bill demo_headers demo_gen_secid provider_today "600519" []).1 =
  Ok {| df_columns := "股票代码" :: today_bill_columns;
        df_rows :=
          [ [JStr "600519"; JStr "2021-01-04 09:31"; JStr "1"; JStr "2";
             JStr "3"; JStr "4"; JStr "5"];
            [JStr "600519"; JStr "2021-01-04 09:32"; JStr "2"; JStr "3";
             JStr "4"; JStr "5"; JStr "6"] ] |}.
Proof.
  apply (today_bill_rows demo_headers demo_gen_secid provider_today "600519" []
           (JObj [("data", demo_today_data)]) demo_today_data demo_today_lines).
  - intros r. reflexivity.
  - reflexivity.
  - reflexivity.
  - repeat constructor.
Defined.

Lemma missing_data_payload_witness :
  (get_today_bill demo_headers demo_gen_secid provider_bare "600519" []).1
  = Raise KeyError ∧
  (get_history_bill demo_bills demo_headers demo_gen_secid provider_bare
     "600519" []).1
  = Ok (DataFrame_empty ["日期"; "主力净流入"]) ∧
  (demo_fetch provider_bare default_kwargs "600519" []).1 = Ok demo_placeholder.
Proof.
  apply (missing_data_payload demo_klines demo_bills demo_headers demo_gen_secid
           demo_urlencode provider_bare "600519" default_kwargs []
           [("rc", JNum 0)]).
  - intros tr' r. reflexivity.
  - reflexivity.
Defined.

Lemma frames_rectangular_witness : rectangular (demo_frame "600519").
Proof.
  apply (proj1 (frames_rectangular demo_klines demo_bills demo_headers
                  demo_gen_secid demo_urlencode provider_ok [] default_kwargs 3
                  [] (demo_multi [] 3) "600519" [] (demo_frame "600519"))).
  vm_compute. reflexivity.
Defined.

Lemma entry_list_all_keys_witness :
  ∃ s, demo_exec provider_ok (Main :: sched_two)
         (get_quote_history (PyList ["600519"; "000001"]) default_kwargs) = Some s ∧
       main s = ReturnedDict ∧
       dom (dfs s) = list_to_set ["600519"; "000001"] ∧
       size (dfs s) = 2%nat.
Proof.
  eexists. split; [vm_compute; reflexivity|].
  split; [reflexivity|].
  edestruct (entry_list_all_keys demo_klines demo_headers demo_gen_secid
               demo_urlencode provider_ok (PyList ["600519"; "000001"])
               default_kwargs (Main :: sched_two)) as (_ & _ & H).
  - reflexivity.
  - reflexivity.
  - apply (bool_decide_unpack _). vm_compute. exact I.
  - intros k _. apply provider_ok_succeeds.
  - reflexivity.
  - vm_compute. reflexivity.
  - exact (H eq_refl).
Defined.

Lemma entry_string_single_witness :
  ∃ s, demo_exec provider_ok [Main; Main]
         (get_quote_history (PyStr "600519") default_kwargs) = Some s ∧
       main s = ReturnedFrame (demo_frame "600519") ∧
       TASKS s = [] ∧ dfs s = ∅ ∧ main s ≠ ReturnedDict.
Proof.
  eexists. split; [vm_compute; reflexivity|].
  split; [reflexivity|].
  edestruct (proj1 (entry_string_single demo_klines demo_headers demo_gen_secid
                      demo_urlencode provider_ok "600519" default_kwargs)
               [Main; Main]) as (H1 & H2 & _ & _ & H3).
  - vm_compute. reflexivity.
  - split; [exact H1|]. split; [exact H2 | exact H3].
Defined.


Lemma multi_repeated_codes_witness :
  ∃ s, demo_exec provider_ok sched_two (demo_multi ["600519"; "600519"] 3) = Some s ∧
       main s = ReturnedDict ∧
       length (TASKS s) = 2%nat ∧
       attempts "600519" (trace s) = 2%nat ∧
       size (dfs s) = 1%nat.
Proof.
  eexists. split; [vm_compute; reflexivity|].
  split; [reflexivity|].
  edestruct (multi_repeated_codes demo_klines demo_headers demo_gen_secid
               demo_urlencode provider_ok ["600519"; "600519"] default_kwargs 3
               sched_two) as (H1 & H2 & _ & H3 & _).
  - lia.
  - intros k _. apply provider_ok_succeeds.
  - vm_compute. reflexivity.
  - reflexivity.
  - split; [exact H1|]. split; [exact (H2 "600519") | exact H3].
Defined.

Lemma multi_order_independent_witness :
  ∃ s1 s2,
    demo_exec provider_ok sched_two (demo_multi ["600519"; "000001"] 3) = Some s1 ∧
    demo_exec provider_ok sched_two_in_turn (demo_multi ["600519"; "000001"] 3)
    = Some s2 ∧
    trace s1 ≠ trace s2 ∧
    dfs s1 = dfs s2.
Proof.
  eexists _, _. split; [vm_compute; reflexivity|].
  split; [vm_compute; reflexivity|].
  split; [vm_compute; discriminate|].
  eapply (λ s1 s2 H1 H2 H3 H4,
            proj1 (multi_order_independent demo_klines demo_headers
                     demo_gen_secid demo_urlencode provider_ok
                     ["600519"; "000001"] default_kwargs 3 sched_two
                     sched_two_in_turn s1 s2
                     (λ k tr tr', eq_refl) H1 H2 H3 H4)).
  - vm_compute. reflexivity.
  - vm_compute. reflexivity.
  - reflexivity.
  - reflexivity.
Defined.

Lemma bar_bounded_witness :
  ∃ s bar, demo_exec provider_ok sched_reporting
             (demo_multi ["600519"; "000001"] 3) = Some s ∧
           pbar s = Some bar ∧
           total bar = 2%nat ∧ (n bar ≤ total bar)%nat ∧
           (closed bar = true ↔ main s = ReturnedDict).
Proof.
  eexists _, _. split; [vm_compute; reflexivity|].
  split; [reflexivity|].
  eapply (λ s He,
            proj1 (bar_bounded demo_klines demo_headers demo_gen_secid
                     demo_urlencode provider_ok ["600519"; "000001"]
                     default_kwargs 3 sched_reporting s He) _).
  - vm_compute. reflexivity.
  - reflexivity.
Defined.

Lemma bar_full_witness :
  ∃ s bar, demo_exec provider_ok sched_two (demo_multi ["600519"; "000001"] 3)
           = Some s ∧
           pbar s = Some bar ∧ n bar = 2%nat ∧ total bar = 2%nat.
Proof.
  edestruct (bar_full demo_klines demo_headers demo_gen_secid demo_urlencode
               provider_ok ["600519"; "000001"] default_kwargs 3 sched_two)
    as (bar & H1 & H2 & H3).
  - lia.
  - reflexivity.
  - intros k _. apply provider_ok_succeeds.
  - vm_compute. reflexivity.
  - reflexivity.
  - eexists _, bar. split; [vm_compute; reflexivity|].
    split; [exact H1|]. split; [exact H2 | exact H3].
Defined.




